(** * GithubFlowManager: the GitHub pipeline-creation flow of the dashboard

    A shallow embedding of
    [blueocean-dashboard/src/main/js/creation/github/GithubFlowManager.js].

    The class is a single-threaded event-driven object: public methods are
    called by the UI, promise continuations run when an API call settles, the
    SSE bus calls the registered handler and a timer calls the timeout
    callback.  Every such callback runs to completion, so each one is a
    function on an explicit state.  The state holds the fields of the class,
    the step stack of the [FlowManager] base class, and the part of the
    environment the class writes to: the handlers registered with
    [sseService], the pending timeouts and the API calls in flight. *)

From Stdlib Require Import ZArith String List Bool Lia.
From stdpp Require Import base option list gmap strings.

(** ** Constants of the module *)

Definition MIN_DELAY : Z := 500.
Definition FIRST_PAGE : Z := 1.
Definition PAGE_SIZE : Z := 100.
Definition SSE_TIMEOUT_DELAY : Z := 1000 * 30.

(** ** Data *)

(** [GithubCreationStatus]: the members of [STATUS] the flow manager assigns. *)
Inductive STATUS :=
| PENDING_LOADING_REPOSITORIES
| STEP_CHOOSE_DISCOVER
| STEP_ALREADY_DISCOVER
| STEP_CONFIRM_DISCOVER
| STEP_CHOOSE_REPOSITORY
| PENDING_CREATION_SAVING
| STEP_COMPLETE_SUCCESS
| STEP_COMPLETE_SAVING_ERROR
| STEP_COMPLETE_EVENT_ERROR
| STEP_COMPLETE_EVENT_TIMEOUT.

(** The step components the manager puts on the step stack. *)
Inductive Step :=
| GithubLoadingStep
| GithubCredentialsStep
| GithubOrgListStep
| GithubChooseDiscoverStep
| GithubAlreadyDiscoverStep
| GithubConfirmDiscoverStep
| GithubRepositoryStep
| GithubCompleteStep.

Record Credential := { credentialId : string }.

(** [jenkinsOrganizationPipeline] is a boolean or an object; the code only
    tests its truthiness. *)
Inductive OrgPipeline :=
| OrgPipelineBool (b : bool)
| OrgPipelineObject (href : string).

Definition truthyPipeline (p : OrgPipeline) : bool :=
  match p with
  | OrgPipelineBool b => b
  | OrgPipelineObject _ => true
  end.

Record Organization := {
  org_name : string;
  autoDiscover : bool;
  jenkinsOrganizationPipeline : OrgPipeline
}.

Record Repository := {
  repo_name : string;
  pipelineCreated : bool
}.

(** The value of [nextPage] in a page of repositories.  The test in
    [_updateRepositories] is the strict [nextPage !== null], which tells
    [null] from a missing ([undefined]) marker, so both are kept. *)
Inductive PageMarker :=
| PageNull
| PageUndefined
| PageNumber (n : Z).

(** [repoData.repositories]: one page of the repository listing. *)
Record RepoPage := {
  items : list Repository;
  nextPage : PageMarker
}.

(** The saved org folder; only [_links.self.href] is read. *)
Record OrgFolder := { self_href : string }.

(** An event of the SSE bus.  The indexing result may be missing. *)
Record SseEvent := {
  blueocean_job_rest_url : string;
  jenkins_event : string;
  job_multibranch_indexing_result : option string
}.

(** The error a rejected API call carries. *)
Record ApiError := { responseBody : option string }.

(** What [createAccessToken] resolves to: [{ success }] or
    [{ success, detail }]. *)
Record TokenResult := {
  success : bool;
  detail : option string
}.

(** The calls made on [_credentialsApi] and [_creationApi], with their
    arguments. *)
Inductive ApiCall :=
| CallFindExistingCredential
| CallCreateAccessToken (token : string)
| CallListOrganizations (credential : option string)
| CallListRepositories (credential : option string) (organizationName : string)
    (pageNumber : PageMarker) (pageSize : Z)
| CallCreateOrgFolder (credential : option string) (organization : Organization)
    (repoNames : list string)
| CallUpdateOrgFolder (credential : option string) (organization : Organization)
    (repoNames : list string).

(** The continuation attached to a call in flight.  A continuation closes
    over nothing but the organization name given to [_updateRepositories]. *)
Inductive Pending :=
| PendingFindExistingCredential
| PendingCreateAccessToken
| PendingListOrganizations
| PendingFirstPage (organizationName : string)
| PendingNextPage (organizationName : string)
| PendingSave.

(** How a promise settles. *)
Inductive Settled (A : Type) :=
| Fulfilled (v : A)
| Rejected (e : ApiError).
Arguments Fulfilled {A} v.
Arguments Rejected {A} e.

(** ** State *)

Record State := mkState {
  (* observable fields *)
  status : option STATUS;
  organizations : list Organization;
  repositories : list Repository;
  selectedOrganization : option Organization;
  selectedRepository : option Repository;
  savedOrgFolder : option OrgFolder;
  (* private fields *)
  _repositoryCache : gmap string (list Repository);
  _discoverSelection : option bool;
  _credentialId : option string;
  _sseSubscribeId : option Z;
  _sseTimeoutId : option Z;
  (* FlowManager *)
  steps : list Step;
  pendingSteps : list string;
  (* environment *)
  sseHandlers : gset Z;
  timers : gset Z;
  inFlight : list Pending;
  issued : list ApiCall
}.

Definition set_status v s :=
  mkState v (organizations s) (repositories s) (selectedOrganization s)
    (selectedRepository s) (savedOrgFolder s) (_repositoryCache s)
    (_discoverSelection s) (_credentialId s) (_sseSubscribeId s)
    (_sseTimeoutId s) (steps s) (pendingSteps s) (sseHandlers s) (timers s)
    (inFlight s) (issued s).

Definition set_organizations v s :=
  mkState (status s) v (repositories s) (selectedOrganization s)
    (selectedRepository s) (savedOrgFolder s) (_repositoryCache s)
    (_discoverSelection s) (_credentialId s) (_sseSubscribeId s)
    (_sseTimeoutId s) (steps s) (pendingSteps s) (sseHandlers s) (timers s)
    (inFlight s) (issued s).

Definition set_repositories v s :=
  mkState (status s) (organizations s) v (selectedOrganization s)
    (selectedRepository s) (savedOrgFolder s) (_repositoryCache s)
    (_discoverSelection s) (_credentialId s) (_sseSubscribeId s)
    (_sseTimeoutId s) (steps s) (pendingSteps s) (sseHandlers s) (timers s)
    (inFlight s) (issued s).

Definition set_selectedOrganization v s :=
  mkState (status s) (organizations s) (repositories s) v
    (selectedRepository s) (savedOrgFolder s) (_repositoryCache s)
    (_discoverSelection s) (_credentialId s) (_sseSubscribeId s)
    (_sseTimeoutId s) (steps s) (pendingSteps s) (sseHandlers s) (timers s)
    (inFlight s) (issued s).

Definition set_selectedRepository v s :=
  mkState (status s) (organizations s) (repositories s) (selectedOrganization s)
    v (savedOrgFolder s) (_repositoryCache s)
    (_discoverSelection s) (_credentialId s) (_sseSubscribeId s)
    (_sseTimeoutId s) (steps s) (pendingSteps s) (sseHandlers s) (timers s)
    (inFlight s) (issued s).

Definition set_savedOrgFolder v s :=
  mkState (status s) (organizations s) (repositories s) (selectedOrganization s)
    (selectedRepository s) v (_repositoryCache s)
    (_discoverSelection s) (_credentialId s) (_sseSubscribeId s)
    (_sseTimeoutId s) (steps s) (pendingSteps s) (sseHandlers s) (timers s)
    (inFlight s) (issued s).

Definition set__repositoryCache v s :=
  mkState (status s) (organizations s) (repositories s) (selectedOrganization s)
    (selectedRepository s) (savedOrgFolder s) v
    (_discoverSelection s) (_credentialId s) (_sseSubscribeId s)
    (_sseTimeoutId s) (steps s) (pendingSteps s) (sseHandlers s) (timers s)
    (inFlight s) (issued s).

Definition set__discoverSelection v s :=
  mkState (status s) (organizations s) (repositories s) (selectedOrganization s)
    (selectedRepository s) (savedOrgFolder s) (_repositoryCache s)
    v (_credentialId s) (_sseSubscribeId s)
    (_sseTimeoutId s) (steps s) (pendingSteps s) (sseHandlers s) (timers s)
    (inFlight s) (issued s).

Definition set__credentialId v s :=
  mkState (status s) (organizations s) (repositories s) (selectedOrganization s)
    (selectedRepository s) (savedOrgFolder s) (_repositoryCache s)
    (_discoverSelection s) v (_sseSubscribeId s)
    (_sseTimeoutId s) (steps s) (pendingSteps s) (sseHandlers s) (timers s)
    (inFlight s) (issued s).

Definition set__sseSubscribeId v s :=
  mkState (status s) (organizations s) (repositories s) (selectedOrganization s)
    (selectedRepository s) (savedOrgFolder s) (_repositoryCache s)
    (_discoverSelection s) (_credentialId s) v
    (_sseTimeoutId s) (steps s) (pendingSteps s) (sseHandlers s) (timers s)
    (inFlight s) (issued s).

Definition set__sseTimeoutId v s :=
  mkState (status s) (organizations s) (repositories s) (selectedOrganization s)
    (selectedRepository s) (savedOrgFolder s) (_repositoryCache s)
    (_discoverSelection s) (_credentialId s) (_sseSubscribeId s)
    v (steps s) (pendingSteps s) (sseHandlers s) (timers s)
    (inFlight s) (issued s).

Definition set_steps v s :=
  mkState (status s) (organizations s) (repositories s) (selectedOrganization s)
    (selectedRepository s) (savedOrgFolder s) (_repositoryCache s)
    (_discoverSelection s) (_credentialId s) (_sseSubscribeId s)
    (_sseTimeoutId s) v (pendingSteps s) (sseHandlers s) (timers s)
    (inFlight s) (issued s).

Definition set_pendingSteps v s :=
  mkState (status s) (organizations s) (repositories s) (selectedOrganization s)
    (selectedRepository s) (savedOrgFolder s) (_repositoryCache s)
    (_discoverSelection s) (_credentialId s) (_sseSubscribeId s)
    (_sseTimeoutId s) (steps s) v (sseHandlers s) (timers s)
    (inFlight s) (issued s).

Definition set_sseHandlers v s :=
  mkState (status s) (organizations s) (repositories s) (selectedOrganization s)
    (selectedRepository s) (savedOrgFolder s) (_repositoryCache s)
    (_discoverSelection s) (_credentialId s) (_sseSubscribeId s)
    (_sseTimeoutId s) (steps s) (pendingSteps s) v (timers s)
    (inFlight s) (issued s).

Definition set_timers v s :=
  mkState (status s) (organizations s) (repositories s) (selectedOrganization s)
    (selectedRepository s) (savedOrgFolder s) (_repositoryCache s)
    (_discoverSelection s) (_credentialId s) (_sseSubscribeId s)
    (_sseTimeoutId s) (steps s) (pendingSteps s) (sseHandlers s) v
    (inFlight s) (issued s).

Definition set_inFlight v s :=
  mkState (status s) (organizations s) (repositories s) (selectedOrganization s)
    (selectedRepository s) (savedOrgFolder s) (_repositoryCache s)
    (_discoverSelection s) (_credentialId s) (_sseSubscribeId s)
    (_sseTimeoutId s) (steps s) (pendingSteps s) (sseHandlers s) (timers s)
    v (issued s).

Definition set_issued v s :=
  mkState (status s) (organizations s) (repositories s) (selectedOrganization s)
    (selectedRepository s) (savedOrgFolder s) (_repositoryCache s)
    (_discoverSelection s) (_credentialId s) (_sseSubscribeId s)
    (_sseTimeoutId s) (steps s) (pendingSteps s) (sseHandlers s) (timers s)
    (inFlight s) v.

(** A method either returns or throws (a [TypeError] on reading a property
    of [null] or [undefined]); the writes made before the throw stay. *)
Inductive Completion :=
| Normal (s : State)
| Thrown (s : State).

Definition state_of (c : Completion) : State :=
  match c with
  | Normal s => s
  | Thrown s => s
  end.

(** ** Promises *)

(** A promise chain is run when the call at its head settles: it maps the
    state to the state its handlers leave and to the settlement of the last
    promise of the chain. *)
Definition Promise (A : Type) : Type := State -> State * Settled A.

Definition Handler (A B : Type) : Type := A -> State -> State * B.

Definition settle {A} (r : Settled A) : Promise A := fun s => (s, r).

(** [p.then(onFulfilled)]: a rejection passes through. *)
Definition then1 {A B} (p : Promise A) (onFulfilled : Handler A B) : Promise B :=
  fun s =>
    let '(s1, r) := p s in
    match r with
    | Fulfilled v => let '(s2, b) := onFulfilled v s1 in (s2, Fulfilled b)
    | Rejected e => (s1, Rejected e)
    end.

(** [p.then(onFulfilled, onRejected)]: the value the rejection handler
    returns fulfils the new promise. *)
Definition then2 {A B} (p : Promise A) (onFulfilled : Handler A B)
    (onRejected : Handler ApiError B) : Promise B :=
  fun s =>
    let '(s1, r) := p s in
    match r with
    | Fulfilled v => let '(s2, b) := onFulfilled v s1 in (s2, Fulfilled b)
    | Rejected e => let '(s2, b) := onRejected e s1 in (s2, Fulfilled b)
    end.

(** Modelled from the spec: [waitAtLeast] of [../flow2/waitAtLeast], which is
    not part of the sources at hand.  The value passes through unchanged,
    only the time of the resolution changes, and time is not part of the
    state. *)
Definition waitAtLeast {A} (delay : Z) : Handler A A := fun v s => (s, v).

(** ** FlowManager *)

(** Modelled from the spec: the step stack of the [FlowManager] base class of
    [../flow2/FlowManager], which is not part of the sources at hand.  The top
    of the stack is the last element; push appends, replace swaps the top. *)
Definition pushStep (step : Step) (s : State) : State :=
  set_steps (steps s ++ [step]) s.

Definition replaceCurrentStep (step : Step) (s : State) : State :=
  set_steps (removelast (steps s) ++ [step]) s.

Definition setPendingSteps (l : list string) (s : State) : State :=
  set_pendingSteps l s.

(** ** Environment *)

(** An API call is made: it is logged, and its continuation waits. *)
Definition issue (c : ApiCall) (k : Pending) (s : State) : State :=
  set_inFlight (inFlight s ++ [k]) (set_issued (issued s ++ [c]) s).

(** [sseService.registerHandler] returning [id], [sseService.removeHandler],
    [setTimeout] returning [id], and [clearTimeout]. *)
Definition registerHandler (id : Z) (s : State) : State :=
  set_sseHandlers ({[id]} ∪ sseHandlers s) s.

Definition removeHandler (id : Z) (s : State) : State :=
  set_sseHandlers (sseHandlers s ∖ {[id]}) s.

Definition setTimeout (id : Z) (s : State) : State :=
  set_timers ({[id]} ∪ timers s) s.

Definition clearTimeout (id : Z) (s : State) : State :=
  set_timers (timers s ∖ {[id]}) s.

(** Truthiness of a handle: [0] is falsy ([null], the other falsy value a
    handle field holds, is [None]). *)
Definition truthyId (id : Z) : bool := negb (id =? 0)%Z.

Definition truthyString (x : string) : bool := negb (String.eqb x "").

(** [String.prototype.indexOf]: the first position of [pat] in [x], or -1. *)
Definition indexOf (x pat : string) : Z :=
  match String.index 0 pat x with
  | Some n => Z.of_nat n
  | None => (-1)%Z
  end.

(** ** The class *)

Definition initialState : State :=
  {| status := None;
     organizations := [];
     repositories := [];
     selectedOrganization := None;
     selectedRepository := None;
     savedOrgFolder := None;
     _repositoryCache := ∅;
     _discoverSelection := None;
     _credentialId := None;
     _sseSubscribeId := None;
     _sseTimeoutId := None;
     steps := [];
     pendingSteps := [];
     sseHandlers := ∅;
     timers := ∅;
     inFlight := [];
     issued := [] |}.

(** [get selectableRepositories].  The observable array is never replaced
    by another value, so the falsy branch of the conditional is not taken. *)
Definition selectableRepositories (s : State) : list Repository :=
  List.filter (fun repo => negb (pipelineCreated repo)) (repositories s).

Definition getInitialStep : Step := GithubLoadingStep.

Definition _cleanupListeners (s : State) : State :=
  let s1 :=
    match _sseSubscribeId s with
    | Some id =>
        if truthyId id then set__sseSubscribeId None (removeHandler id s) else s
    | None => s
    end in
  match _sseTimeoutId s1 with
  | Some id =>
      if truthyId id then set__sseTimeoutId None (clearTimeout id s1) else s1
  | None => s1
  end.

Definition destroy (s : State) : State := _cleanupListeners s.

Definition _setStatus (st : STATUS) (s : State) : State :=
  set_status (Some st) s.

(** [listOrganizations()]: the call; its chain is [listOrganizations_chain]. *)
Definition listOrganizations (s : State) : State :=
  issue (CallListOrganizations (_credentialId s)) PendingListOrganizations s.

Definition _updateOrganizations (orgs : list Organization) (s : State) : State :=
  let s1 := set_organizations orgs s in
  let s2 := replaceCurrentStep GithubOrgListStep s1 in
  setPendingSteps ["Complete"%string] s2.

Definition listOrganizations_chain (r : Settled (list Organization)) : Promise unit :=
  then1 (then1 (settle r) (waitAtLeast MIN_DELAY))
        (fun orgs s => (_updateOrganizations orgs s, tt)).

(** [findExistingCredential()]: the call; its chain is
    [findExistingCredential_chain]. *)
Definition findExistingCredential (s : State) : State :=
  issue CallFindExistingCredential PendingFindExistingCredential s.

Definition _afterInitialStep (credential : option Credential) (s : State) : State :=
  match credential with
  | Some c =>
      if truthyString (credentialId c) then
        listOrganizations (set__credentialId (Some (credentialId c)) s)
      else replaceCurrentStep GithubCredentialsStep s
  | None => replaceCurrentStep GithubCredentialsStep s
  end.

Definition findExistingCredential_chain (r : Settled (option Credential)) : Promise unit :=
  then1 (then1 (settle r) (waitAtLeast MIN_DELAY))
        (fun credential s => (_afterInitialStep credential s, tt)).

Definition onInitialized (s : State) : State := findExistingCredential s.

(** Modelled from the spec: the initialization the [FlowManager] base class
    performs, which is not part of the sources at hand.  The initial step is
    put on the stack, then [onInitialized] is called. *)
Definition initialize (s : State) : State :=
  onInitialized (pushStep getInitialStep s).

(** [createAccessToken(token)]: the call; its chain is
    [createAccessToken_chain]. *)
Definition createAccessToken (token : string) (s : State) : State :=
  issue (CallCreateAccessToken token) PendingCreateAccessToken s.

Definition _createTokenSuccess (cred : Credential) (s : State) : State * TokenResult :=
  let s1 := set__credentialId (Some (credentialId cred)) s in
  let s2 := pushStep GithubLoadingStep s1 in
  let s3 := listOrganizations s2 in
  (s3, {| success := true; detail := None |}).

Definition _createTokenFailure (error : ApiError) (s : State) : State * TokenResult :=
  (s, {| success := false; detail := responseBody error |}).

Definition createAccessToken_chain (r : Settled Credential) : Promise TokenResult :=
  then2 (then1 (settle r) (waitAtLeast MIN_DELAY))
        (fun cred s => _createTokenSuccess cred s)
        (fun error s => _createTokenFailure error s).

Definition selectOrganization (organization : Organization) (s : State) : State :=
  let s1 := set_selectedOrganization (Some organization) s in
  let s2 := _setStatus STEP_CHOOSE_DISCOVER s1 in
  pushStep GithubChooseDiscoverStep s2.

Definition selectRepository (repo : Repository) (s : State) : State :=
  set_selectedRepository (Some repo) s.

Definition _loadPagedRepository (k : Pending) (organizationName : string)
    (pageNumber : PageMarker) (s : State) : State :=
  let pageSize := PAGE_SIZE in
  issue (CallListRepositories (_credentialId s) organizationName pageNumber pageSize) k s.

(** [_updateRepositories(organizationName, repoData)], on
    [repoData.repositories].  [slice()] copies, so the cache entry is the
    value of the collection at this point and later pushes do not reach it. *)
Definition _updateRepositories (organizationName : string) (repoData : RepoPage)
    (s : State) : State :=
  let s1 := set_repositories (repositories s ++ items repoData) s in
  let s2 := set__repositoryCache
              (<[organizationName := repositories s1]> (_repositoryCache s1)) s1 in
  match nextPage repoData with
  | PageNull =>
      match _discoverSelection s2 with
      | Some true =>
          _setStatus STEP_CONFIRM_DISCOVER (replaceCurrentStep GithubConfirmDiscoverStep s2)
      | _ =>
          _setStatus STEP_CHOOSE_REPOSITORY (replaceCurrentStep GithubRepositoryStep s2)
      end
  | np => _loadPagedRepository (PendingNextPage organizationName) organizationName np s2
  end.

Definition _updateRepositories_chain (organizationName : string)
    (r : Settled RepoPage) : Promise unit :=
  then1 (settle r) (fun repos2 s => (_updateRepositories organizationName repos2 s, tt)).

(** [_loadAllRepositories(organization)]: the call for the first page; its
    chain is [_loadAllRepositories_chain]. *)
Definition _loadAllRepositories (organization : Organization) (s : State) : State :=
  let s1 := set_repositories [] s in
  let s2 := _loadPagedRepository (PendingFirstPage (org_name organization))
              (org_name organization) (PageNumber FIRST_PAGE) s1 in
  _setStatus PENDING_LOADING_REPOSITORIES s2.

Definition _loadAllRepositories_chain (organizationName : string)
    (r : Settled RepoPage) : Promise unit :=
  then1 (then1 (settle r) (waitAtLeast MIN_DELAY))
        (fun repos s => (_updateRepositories organizationName repos s, tt)).

Definition selectDiscover (discover : bool) (s : State) : Completion :=
  let s1 := set__discoverSelection (Some discover) s in
  match selectedOrganization s1 with
  | None => Thrown s1
  | Some organization =>
      if autoDiscover organization && discover then
        Normal (pushStep GithubAlreadyDiscoverStep (_setStatus STEP_ALREADY_DISCOVER s1))
      else
        Normal (pushStep GithubLoadingStep (_loadAllRepositories organization s1))
  end.

(** [_getFullRepoNameList()]; [None] when it throws.  It writes nothing. *)
Definition _getFullRepoNameList (s : State) : option (list string) :=
  match selectedOrganization s with
  | None => None
  | Some organization =>
      match _repositoryCache s !! org_name organization with
      | None => None
      | Some allRepos =>
          let existingPipelines := List.filter (fun repo => pipelineCreated repo) allRepos in
          let repoNames := List.map (fun repo => repo_name repo) existingPipelines in
          match selectedRepository s with
          | None => None
          | Some repo => Some (repoNames ++ [repo_name repo])
          end
      end
  end.

(** [_saveOrgFolder(repoNames = [])]: the call; its chain is
    [_saveOrgFolder_chain]. *)
Definition _saveOrgFolder (repoNames : option (list string)) (s : State) : Completion :=
  let repoNames := default [] repoNames in
  let s1 := _setStatus PENDING_CREATION_SAVING s in
  let s2 := pushStep GithubCompleteStep s1 in
  let s3 := setPendingSteps [] s2 in
  match selectedOrganization s3 with
  | None => Thrown s3
  | Some organization =>
      let shouldCreate := negb (truthyPipeline (jenkinsOrganizationPipeline organization)) in
      Normal
        (if shouldCreate then
           issue (CallCreateOrgFolder (_credentialId s3) organization repoNames) PendingSave s3
         else
           issue (CallUpdateOrgFolder (_credentialId s3) organization repoNames) PendingSave s3)
  end.

Definition saveAutoDiscover (s : State) : Completion := _saveOrgFolder None s.

Definition saveSingleRepo (s : State) : Completion :=
  match _getFullRepoNameList s with
  | None => Thrown s
  | Some repoNames => _saveOrgFolder (Some repoNames) s
  end.

(** [_saveOrgFolderSuccess(orgFolder)]; [subscribeId] and [timeoutId] are
    the handles [sseService.registerHandler] and [setTimeout] return. *)
Definition _saveOrgFolderSuccess (orgFolder : OrgFolder) (subscribeId timeoutId : Z)
    (s : State) : State :=
  let s1 := _setStatus STEP_COMPLETE_SUCCESS s in
  let s2 := set_savedOrgFolder (Some orgFolder) s1 in
  let s3 := set__sseSubscribeId (Some subscribeId) (registerHandler subscribeId s2) in
  set__sseTimeoutId (Some timeoutId) (setTimeout timeoutId s3).

Definition _saveOrgFolderFailure (s : State) : State :=
  _setStatus STEP_COMPLETE_SAVING_ERROR s.

Definition _saveOrgFolder_chain (subscribeId timeoutId : Z)
    (r : Settled OrgFolder) : Promise unit :=
  then2 (then1 (settle r) (waitAtLeast 500))
        (fun orgFolder s => (_saveOrgFolderSuccess orgFolder subscribeId timeoutId s, tt))
        (fun _ s => (_saveOrgFolderFailure s, tt)).

(** The test of [_onSseEvent] on the event's target. *)
Definition targetsSavedFolder (event : SseEvent) (folder : OrgFolder) : bool :=
  (indexOf (blueocean_job_rest_url event) (self_href folder) =? 0)%Z.

Definition _onSseEvent (event : SseEvent) (s : State) : Completion :=
  match savedOrgFolder s with
  | None => Thrown s
  | Some folder =>
      if targetsSavedFolder event folder then
        if String.eqb (jenkins_event event) "job_run_queue_task_complete" then
          match job_multibranch_indexing_result event with
          | Some result =>
              if String.eqb result "SUCCESS" then
                Normal (_cleanupListeners (_setStatus STEP_COMPLETE_SUCCESS s))
              else if String.eqb result "FAILURE" then
                Normal (_cleanupListeners (_setStatus STEP_COMPLETE_EVENT_ERROR s))
              else Normal s
          | None => Normal s
          end
        else Normal s
      else Normal s
  end.

Definition _onSseTimeout (s : State) : State :=
  _cleanupListeners (_setStatus STEP_COMPLETE_EVENT_TIMEOUT s).

(** ** The flow as a transition system *)

(** What can happen to the manager: the UI calls a public method, a call in
    flight settles, the bus delivers an event, a pending timeout fires. *)
Inductive Action :=
| Initialize
| CreateAccessToken (token : string)
| SelectOrganization (organization : Organization)
| SelectDiscover (discover : bool)
| SaveAutoDiscover
| SelectRepository (repo : Repository)
| SaveSingleRepo
| Destroy
| FindExistingCredentialSettles (r : Settled (option Credential))
| CreateAccessTokenSettles (r : Settled Credential)
| ListOrganizationsSettles (r : Settled (list Organization))
| ListRepositoriesSettles (organizationName : string) (r : Settled RepoPage)
| SaveSettles (r : Settled OrgFolder) (subscribeId timeoutId : Z)
| SseEventArrives (event : SseEvent)
| TimeoutFires (id : Z).

(** The oldest continuation in flight that satisfies [P], and the others. *)
Fixpoint takePending (P : Pending -> bool) (l : list Pending)
    : option (Pending * list Pending) :=
  match l with
  | [] => None
  | k :: l' =>
      if P k then Some (k, l')
      else match takePending P l' with
           | Some (k', rest) => Some (k', k :: rest)
           | None => None
           end
  end.

Definition isFindExistingCredential (k : Pending) : bool :=
  match k with PendingFindExistingCredential => true | _ => false end.

Definition isCreateAccessToken (k : Pending) : bool :=
  match k with PendingCreateAccessToken => true | _ => false end.

Definition isListOrganizations (k : Pending) : bool :=
  match k with PendingListOrganizations => true | _ => false end.

Definition isPageOf (organizationName : string) (k : Pending) : bool :=
  match k with
  | PendingFirstPage o => String.eqb o organizationName
  | PendingNextPage o => String.eqb o organizationName
  | _ => false
  end.

Definition isSave (k : Pending) : bool :=
  match k with PendingSave => true | _ => false end.

(** Modelled from the spec: the delivery of an event by the bus of
    [sseService], which is not part of the sources at hand.  The bus calls
    the handlers that are registered; every handler this class registers is
    [event => this._onSseEvent(event)].  A handler removed during the delivery
    is not called. *)
Definition sseDispatch (event : SseEvent) (s : State) : State :=
  foldl (fun acc id =>
           if decide (id ∈ sseHandlers acc) then state_of (_onSseEvent event acc)
           else acc)
        s (elements (sseHandlers s)).

(** One action.  [None]: the action cannot happen in this state (no such
    call in flight, no such timeout pending, or handles that break the
    contract of [registerHandler] and [setTimeout], whose handles are
    truthy). *)
Definition exec (a : Action) (s : State) : option State :=
  match a with
  | Initialize => Some (initialize s)
  | CreateAccessToken token => Some (createAccessToken token s)
  | SelectOrganization organization => Some (selectOrganization organization s)
  | SelectDiscover discover => Some (state_of (selectDiscover discover s))
  | SaveAutoDiscover => Some (state_of (saveAutoDiscover s))
  | SelectRepository repo => Some (selectRepository repo s)
  | SaveSingleRepo => Some (state_of (saveSingleRepo s))
  | Destroy => Some (destroy s)
  | FindExistingCredentialSettles r =>
      match takePending isFindExistingCredential (inFlight s) with
      | Some (_, rest) => Some (fst (findExistingCredential_chain r (set_inFlight rest s)))
      | None => None
      end
  | CreateAccessTokenSettles r =>
      match takePending isCreateAccessToken (inFlight s) with
      | Some (_, rest) => Some (fst (createAccessToken_chain r (set_inFlight rest s)))
      | None => None
      end
  | ListOrganizationsSettles r =>
      match takePending isListOrganizations (inFlight s) with
      | Some (_, rest) => Some (fst (listOrganizations_chain r (set_inFlight rest s)))
      | None => None
      end
  | ListRepositoriesSettles organizationName r =>
      match takePending (isPageOf organizationName) (inFlight s) with
      | Some (PendingFirstPage o, rest) =>
          Some (fst (_loadAllRepositories_chain o r (set_inFlight rest s)))
      | Some (PendingNextPage o, rest) =>
          Some (fst (_updateRepositories_chain o r (set_inFlight rest s)))
      | _ => None
      end
  | SaveSettles r subscribeId timeoutId =>
      if truthyId subscribeId && truthyId timeoutId then
        match takePending isSave (inFlight s) with
        | Some (_, rest) =>
            Some (fst (_saveOrgFolder_chain subscribeId timeoutId r (set_inFlight rest s)))
        | None => None
        end
      else None
  | SseEventArrives event => Some (sseDispatch event s)
  | TimeoutFires id =>
      if decide (id ∈ timers s) then
        Some (_onSseTimeout (set_timers (timers s ∖ {[id]}) s))
      else None
  end.

Fixpoint run (trace : list Action) (s : State) : option State :=
  match trace with
  | [] => Some s
  | a :: trace' =>
      match exec a s with
      | Some s' => run trace' s'
      | None => None
      end
  end.

Definition reachable (s : State) : Prop :=
  exists trace, run trace initialState = Some s.

(** The page responses of one pagination, as actions. *)
Definition pageResponses (organizationName : string) (pages : list RepoPage)
    : list Action :=
  List.map (fun page => ListRepositoriesSettles organizationName (Fulfilled page)) pages.

(** The repository-listing calls among the calls made. *)
Definition isListRepositories (c : ApiCall) : bool :=
  match c with CallListRepositories _ _ _ _ => true | _ => false end.

Definition fetches (s : State) : list ApiCall :=
  List.filter isListRepositories (issued s).

(** ** Predicates of the statements *)

(** The subscription and the timeout the manager holds: both absent, or both
    held and live in the environment. *)
Definition sseListenersPaired (s : State) : Prop :=
  match _sseSubscribeId s, _sseTimeoutId s with
  | None, None => True
  | Some subscribeId, Some timeoutId =>
      subscribeId ≠ 0%Z ∧ timeoutId ≠ 0%Z ∧
      subscribeId ∈ sseHandlers s ∧ timeoutId ∈ timers s
  | _, _ => False
  end.

(** The two handles the manager holds: both absent, or both truthy. *)
Definition handlesPaired (s : State) : Prop :=
  match _sseSubscribeId s, _sseTimeoutId s with
  | None, None => True
  | Some subscribeId, Some timeoutId => subscribeId ≠ 0%Z ∧ timeoutId ≠ 0%Z
  | _, _ => False
  end.

(** The part of the state the completion listener lives in. *)
Definition sseView (s : State) : option Z * option Z * gset Z * gset Z :=
  (_sseSubscribeId s, _sseTimeoutId s, sseHandlers s, timers s).

(** The handlers registered and the timeouts pending are the ones held. *)
Definition sseEnvironmentExact (s : State) : Prop :=
  sseHandlers s = from_option (fun id => {[id]}) ∅ (_sseSubscribeId s) ∧
  timers s = from_option (fun id => {[id]}) ∅ (_sseTimeoutId s).

(** A save success that arrives while the manager holds a subscription. *)
Definition rearms (a : Action) (s : State) : bool :=
  match a, _sseSubscribeId s with
  | SaveSettles (Fulfilled _) _ _, Some _ => true
  | _, _ => false
  end.

Definition always (a : Action) (s : State) : bool := true.

Definition withoutRearming (a : Action) (s : State) : bool := negb (rearms a s).

(** [permitted] holds of every action of the trace, in the state the action
    runs in. *)
Fixpoint permittedAlong (permitted : Action -> State -> bool) (trace : list Action)
    (s : State) : bool :=
  match trace with
  | [] => true
  | a :: trace' =>
      permitted a s &&
      match exec a s with
      | Some s' => permittedAlong permitted trace' s'
      | None => true
      end
  end.

(** Nothing armed: no handle held, no handler registered, no timeout
    pending. *)
Definition disarmed (s : State) : Prop :=
  _sseSubscribeId s = None ∧ _sseTimeoutId s = None ∧
  sseHandlers s = ∅ ∧ timers s = ∅.

(** A terminal event for [folder]: it targets the folder, it is a
    [job_run_queue_task_complete], and its result is SUCCESS or FAILURE. *)
Definition terminalEvent (folder : OrgFolder) (event : SseEvent) : bool :=
  targetsSavedFolder event folder
  && String.eqb (jenkins_event event) "job_run_queue_task_complete"
  && match job_multibranch_indexing_result event with
     | Some result => String.eqb result "SUCCESS" || String.eqb result "FAILURE"
     | None => false
     end.

(** The repositories not yet bound to a pipeline. *)
Definition notCreated (repo : Repository) : Prop := pipelineCreated repo = false.

(** The name list of the save call made last, if a save call was made last. *)
Definition persistedNames (s : State) : option (list string) :=
  match last (issued s) with
  | Some (CallCreateOrgFolder _ _ names) => Some names
  | Some (CallUpdateOrgFolder _ _ names) => Some names
  | _ => None
  end.

(** ** Sample data *)

Definition acme : Organization :=
  {| org_name := "acme";
     autoDiscover := true;
     jenkinsOrganizationPipeline := OrgPipelineBool false |}.

Definition repoA : Repository := {| repo_name := "A"; pipelineCreated := true |}.
Definition repoB : Repository := {| repo_name := "B"; pipelineCreated := true |}.
Definition repoC : Repository := {| repo_name := "C"; pipelineCreated := false |}.
Definition repoX : Repository := {| repo_name := "X"; pipelineCreated := false |}.

Definition pageOne : RepoPage := {| items := [repoA; repoC]; nextPage := PageNumber 2 |}.
Definition pageTwo : RepoPage := {| items := [repoB; repoX]; nextPage := PageNull |}.
Definition pageWithoutMarker : RepoPage := {| items := [repoA]; nextPage := PageUndefined |}.

Definition acmeFolder : OrgFolder :=
  {| self_href := "/rest/organizations/jenkins/pipelines/acme/" |}.

(** The flow up to the repository choice: credential found, organizations
    listed, [acme] selected without auto-discovery, two pages loaded. *)
Definition traceToRepositoryChoice : list Action :=
  [ Initialize;
    FindExistingCredentialSettles (Fulfilled (Some {| credentialId := "github" |}));
    ListOrganizationsSettles (Fulfilled [acme]);
    SelectOrganization acme;
    SelectDiscover false;
    ListRepositoriesSettles "acme" (Fulfilled pageOne);
    ListRepositoriesSettles "acme" (Fulfilled pageTwo) ].

(** ... and on to the armed completion listener: [X] selected and saved, the
    save fulfilled, the handler registered as 7 and the timeout as 9. *)
Definition traceToArmed : list Action :=
  traceToRepositoryChoice ++
  [ SelectRepository repoX;
    SaveSingleRepo;
    SaveSettles (Fulfilled acmeFolder) 7 9 ].

Definition stateAtRepositoryChoice : State :=
  default initialState (run (traceToRepositoryChoice ++ [SelectRepository repoX]) initialState).

Definition stateArmed : State :=
  default initialState (run traceToArmed initialState).

Definition nestedFailure : SseEvent :=
  {| blueocean_job_rest_url := "/rest/organizations/jenkins/pipelines/acme/pipelines/X/";
     jenkins_event := "job_run_queue_task_complete";
     job_multibranch_indexing_result := Some "FAILURE"%string |}.

Definition rateLimited : SseEvent :=
  {| blueocean_job_rest_url := "/rest/organizations/jenkins/pipelines/acme/";
     jenkins_event := "job_run_queue_task_complete";
     job_multibranch_indexing_result := None |}.

Definition otherFolderSuccess : SseEvent :=
  {| blueocean_job_rest_url := "/rest/organizations/jenkins/pipelines/other/";
     jenkins_event := "job_run_queue_task_complete";
     job_multibranch_indexing_result := Some "SUCCESS"%string |}.

Definition acmeSuccess : SseEvent :=
  {| blueocean_job_rest_url := "/rest/organizations/jenkins/pipelines/acme/";
     jenkins_event := "job_run_queue_task_complete";
     job_multibranch_indexing_result := Some "SUCCESS"%string |}.

(** ** Further definitions for the statements *)

(** The status a terminal event leaves. *)
Definition terminalStatus (event : SseEvent) : STATUS :=
  match job_multibranch_indexing_result event with
  | Some result =>
      if String.eqb result "SUCCESS" then STEP_COMPLETE_SUCCESS
      else STEP_COMPLETE_EVENT_ERROR
  | None => STEP_COMPLETE_EVENT_ERROR
  end.

(** The listener part of the state together with the saved folder. *)
Definition listenerPart (s : State) : option Z * option Z * gset Z * gset Z * option OrgFolder :=
  (sseView s, savedOrgFolder s).

(** A handler is registered only once a folder is saved. *)
Definition handlerHasFolder (s : State) : Prop :=
  is_Some (savedOrgFolder s) \/ sseHandlers s = ∅.

Definition globex : Organization :=
  {| org_name := "globex";
     autoDiscover := false;
     jenkinsOrganizationPipeline := OrgPipelineObject "/rest/organizations/jenkins/pipelines/globex/" |}.

Definition githubCredential : Credential := {| credentialId := "github" |}.

Definition stateWithGlobexSelected : State := selectOrganization globex initialState.

Definition stateWithCreatedSelected : State :=
  selectRepository repoA stateAtRepositoryChoice.

Definition stateSaving : State := state_of (saveSingleRepo stateAtRepositoryChoice).

Definition stateWithGlobexCached : State :=
  set__repositoryCache (<["globex"%string := [repoC]]> ∅) initialState.

(** The pair on the side of the environment: a handler is registered with
    the bus exactly when a timeout is pending. *)
Definition subscriptionAndTimerTogether (s : State) : Prop :=
  sseHandlers s = ∅ <-> timers s = ∅.

(** The sample flow with a second save that succeeds while the listener of
    the first is armed, up to the timeout of the first. *)
Definition traceRearmed : list Action :=
  traceToArmed ++
  [ SaveSingleRepo;
    SaveSettles (Fulfilled acmeFolder) 11 13;
    TimeoutFires 9 ].

Definition stateRearmed : State :=
  default initialState (run traceRearmed initialState).

(** The armed sample state with a second save in flight. *)
Definition stateArmedSaving : State :=
  default initialState (run (traceToArmed ++ [SaveSingleRepo]) initialState).

(** * Properties *)

(** ** Strings: [indexOf] and prefixes *)

Lemma append_cons (a : Ascii.ascii) (x y : string) :
  (String a x +:+ y)%string = String a (x +:+ y).
Proof. reflexivity. Qed.

Lemma prefix_iff_append (pat x : string) :
  String.prefix pat x = true <-> exists rest, x = (pat +:+ rest)%string.
Proof.
  revert x. induction pat as [|a pat IH]; intros x.
  - split; [intros _; exists x; reflexivity | intros _; destruct x; reflexivity].
  - destruct x as [|b x]; simpl.
    + split; [discriminate | intros [rest H]; discriminate].
    + destruct (Ascii.ascii_dec a b) as [->|Hne].
      * rewrite IH. split; intros [rest H]; exists rest;
          rewrite append_cons in *; congruence.
      * split; [discriminate | intros [rest H]; rewrite append_cons in H; congruence].
Qed.

Lemma index_zero_iff_prefix (pat x : string) :
  String.index 0 pat x = Some 0%nat <-> String.prefix pat x = true.
Proof.
  destruct x as [|b x].
  - destruct pat; simpl; split; congruence.
  - cbn [String.index].
    destruct (String.prefix pat (String b x)); [tauto|].
    destruct (String.index 0 pat x); split; congruence.
Qed.

Lemma indexOf_zero_iff_prefix (x pat : string) :
  indexOf x pat = 0%Z <-> String.prefix pat x = true.
Proof.
  rewrite <- index_zero_iff_prefix. unfold indexOf.
  destruct (String.index 0 pat x) as [n|].
  - split; [intros H; f_equal; lia | intros [= ->]; reflexivity].
  - split; [lia | discriminate].
Qed.

Lemma targetsSavedFolder_prefix (event : SseEvent) (folder : OrgFolder) :
  targetsSavedFolder event folder = true <->
  String.prefix (self_href folder) (blueocean_job_rest_url event) = true.
Proof.
  unfold targetsSavedFolder. rewrite Z.eqb_eq. apply indexOf_zero_iff_prefix.
Qed.

Example indexOf_inside : indexOf "abcabc" "bc" = 1%Z.
Proof. reflexivity. Qed.

Example indexOf_missing : indexOf "abc" "x" = (-1)%Z.
Proof. reflexivity. Qed.

Example indexOf_empty_pattern : indexOf "abc" "" = 0%Z.
Proof. reflexivity. Qed.

(** ** The SSE handler *)

(** An event that is not terminal for the saved folder leaves the whole
    state as it is. *)
Lemma _onSseEvent_not_terminal (event : SseEvent) (folder : OrgFolder) (s : State) :
  savedOrgFolder s = Some folder ->
  terminalEvent folder event = false ->
  _onSseEvent event s = Normal s.
Proof.
  intros Hf Ht. unfold _onSseEvent, terminalEvent in *. rewrite Hf.
  destruct (targetsSavedFolder event folder); [|reflexivity].
  destruct (String.eqb (jenkins_event event) _); [|reflexivity].
  destruct (job_multibranch_indexing_result event) as [result|]; [|reflexivity].
  simpl in Ht. apply orb_false_elim in Ht as [-> ->]. reflexivity.
Qed.

Lemma sseDispatch_fixed (event : SseEvent) (s : State) :
  state_of (_onSseEvent event s) = s -> sseDispatch event s = s.
Proof.
  intros H. unfold sseDispatch.
  induction (elements (sseHandlers s)) as [|id ids IH]; [reflexivity|].
  simpl. destruct (decide (id ∈ sseHandlers s)); [rewrite H|]; exact IH.
Qed.

Lemma sseDispatch_no_handler (event : SseEvent) (s : State) :
  sseHandlers s = ∅ -> sseDispatch event s = s.
Proof.
  intros H. unfold sseDispatch. rewrite H, elements_empty. reflexivity.
Qed.

(** C3: a delivered event that is not a matching terminal event (its target
    does not match the saved folder, or it matches, is a
    [job_run_queue_task_complete] and its result is neither SUCCESS nor
    FAILURE, a missing result included) leaves the status unchanged and
    leaves the subscription and the timer as they are; the handler returns
    without a write. *)
Theorem sse_event_not_terminal_ignored
    (event : SseEvent) (folder : OrgFolder) (s : State) :
  savedOrgFolder s = Some folder ->
  targetsSavedFolder event folder = false \/
  (targetsSavedFolder event folder = true /\
   jenkins_event event = "job_run_queue_task_complete" /\
   job_multibranch_indexing_result event <> Some "SUCCESS" /\
   job_multibranch_indexing_result event <> Some "FAILURE") ->
  _onSseEvent event s = Normal s /\
  let s' := sseDispatch event s in
  status s' = status s /\
  _sseSubscribeId s' = _sseSubscribeId s /\
  _sseTimeoutId s' = _sseTimeoutId s /\
  sseHandlers s' = sseHandlers s /\
  timers s' = timers s.
Proof.
  intros Hf Hev.
  assert (Hnt : terminalEvent folder event = false).
  { unfold terminalEvent. destruct Hev as [->|(-> & -> & Hs & Hfail)]; [reflexivity|].
    simpl. destruct (job_multibranch_indexing_result event) as [result|]; [|reflexivity].
    apply orb_false_intro; apply String.eqb_neq; congruence. }
  pose proof (_onSseEvent_not_terminal event folder s Hf Hnt) as Hon.
  split; [exact Hon|].
  rewrite (sseDispatch_fixed event s) by (rewrite Hon; reflexivity).
  cbv zeta. repeat split; reflexivity.
Qed.

Lemma sse_event_not_terminal_ignored_witness :
  savedOrgFolder stateArmed = Some acmeFolder /\
  _onSseEvent rateLimited stateArmed = Normal stateArmed /\
  _onSseEvent otherFolderSuccess stateArmed = Normal stateArmed /\
  status (sseDispatch rateLimited stateArmed) = Some STEP_COMPLETE_SUCCESS /\
  _sseSubscribeId (sseDispatch rateLimited stateArmed) = Some 7%Z /\
  _sseTimeoutId (sseDispatch rateLimited stateArmed) = Some 9%Z.
Proof.
  assert (Hf : savedOrgFolder stateArmed = Some acmeFolder) by reflexivity.
  split; [exact Hf|].
  destruct (sse_event_not_terminal_ignored rateLimited acmeFolder stateArmed Hf)
    as [Hon (Hst & Hs & Ht & _)].
  { right. repeat split; discriminate. }
  destruct (sse_event_not_terminal_ignored otherFolderSuccess acmeFolder stateArmed Hf)
    as [Hon' _].
  { left. reflexivity. }
  split; [exact Hon|]. split; [exact Hon'|].
  split; [rewrite Hst; reflexivity|].
  split; [rewrite Hs; reflexivity | rewrite Ht; reflexivity].
Defined.

(** C10: the event targets the saved org folder exactly when its
    [blueocean_job_rest_url] is the folder's self link followed by any
    rest, so an event for a resource under the folder's URL is handled like
    one for the folder itself: a FAILURE completion under the folder sets the
    event-error status and cleans up. *)
Theorem event_matching_is_prefix_based (event : SseEvent) (folder : OrgFolder) :
  (targetsSavedFolder event folder = true <->
   exists rest, blueocean_job_rest_url event = (self_href folder +:+ rest)%string) /\
  (forall rest s,
     let nested :=
       {| blueocean_job_rest_url := (self_href folder +:+ rest)%string;
          jenkins_event := "job_run_queue_task_complete";
          job_multibranch_indexing_result := Some "FAILURE"%string |} in
     let armed := set_savedOrgFolder (Some folder) s in
     _onSseEvent nested armed =
       Normal (_cleanupListeners (_setStatus STEP_COMPLETE_EVENT_ERROR armed))).
Proof.
  split.
  - rewrite targetsSavedFolder_prefix. apply prefix_iff_append.
  - intros rest s nested armed.
    assert (Ht : targetsSavedFolder nested folder = true).
    { apply targetsSavedFolder_prefix, prefix_iff_append. exists rest. reflexivity. }
    unfold _onSseEvent.
    change (savedOrgFolder armed) with (Some folder). cbv beta iota.
    rewrite Ht. reflexivity.
Qed.

(** ** Token creation *)

Lemma takePending_last (P : Pending -> bool) (l : list Pending) (k : Pending) :
  P k = true -> exists k' rest, takePending P (l ++ [k]) = Some (k', rest) /\ P k' = true.
Proof.
  intros Hk. induction l as [|k0 l IH]; simpl.
  - rewrite Hk. eauto.
  - destruct (P k0) eqn:Hk0; [eauto|].
    destruct IH as (k' & rest & -> & Hk'). eauto.
Qed.

(** C7: when the create-access-token call is rejected, the promise
    [createAccessToken] returns is fulfilled with
    [{success: false, detail: error.responseBody}], and no field of the
    manager is written: the step stack, its top and the status stay. *)
Theorem createAccessToken_rejected (error : ApiError) (token : string) (s : State) :
  createAccessToken_chain (Rejected error) s =
    (s, Fulfilled {| success := false; detail := responseBody error |}) /\
  exists s',
    exec (CreateAccessTokenSettles (Rejected error)) (createAccessToken token s) = Some s' /\
    steps s' = steps s /\ last (steps s') = last (steps s) /\
    pendingSteps s' = pendingSteps s /\ status s' = status s /\
    _credentialId s' = _credentialId s.
Proof.
  split; [reflexivity|].
  unfold exec, createAccessToken, issue.
  change (inFlight (set_inFlight ?l ?x)) with l.
  destruct (takePending_last isCreateAccessToken (inFlight s) PendingCreateAccessToken eq_refl)
    as (k' & rest & -> & _).
  eexists. split; [reflexivity|]. repeat split; reflexivity.
Qed.

(** ** Selectable repositories *)

Lemma filter_sublist_bool {A} (f : A -> bool) (l : list A) :
  List.filter f l `sublist_of` l.
Proof.
  induction l as [|x l IH]; simpl; [constructor|].
  destruct (f x); by constructor.
Qed.

Lemma sublist_filter_bool {A} (f : A -> bool) (k l : list A) :
  k `sublist_of` l -> Forall (fun x => f x = true) k -> k `sublist_of` List.filter f l.
Proof.
  induction 1 as [|x k l Hkl IH|x k l Hkl IH]; intros Hall; simpl.
  - constructor.
  - inversion Hall as [|? ? Hx Hk]; subst. rewrite Hx. constructor. by apply IH.
  - destruct (f x); [constructor|]; by apply IH.
Qed.

(** C9: for every repository collection, [selectableRepositories] holds no
    repository with [pipelineCreated] true and holds every other one, in the
    order of the collection: it is a sublist of the collection, its members
    are exactly the members that are not pipeline-created, and every sublist
    of the collection without pipeline-created members is a sublist of it. *)
Theorem selectableRepositories_spec (s : State) :
  (forall repo, repo ∈ selectableRepositories s <->
                repo ∈ repositories s /\ pipelineCreated repo = false) /\
  selectableRepositories s `sublist_of` repositories s /\
  (forall l, l `sublist_of` repositories s -> Forall notCreated l ->
             l `sublist_of` selectableRepositories s).
Proof.
  unfold selectableRepositories. split; [|split].
  - intros repo. rewrite !list_elem_of_In, filter_In, negb_true_iff. reflexivity.
  - apply filter_sublist_bool.
  - intros l Hl Hall. apply sublist_filter_bool; [exact Hl|].
    eapply Forall_impl; [exact Hall|]. intros repo Hr. unfold notCreated in Hr.
    rewrite Hr. reflexivity.
Qed.

(** ** Saving *)

Lemma persistedNames_issue_create (credential : option string)
    (organization : Organization) (names : list string) (k : Pending) (s : State) :
  persistedNames (issue (CallCreateOrgFolder credential organization names) k s) = Some names.
Proof. unfold persistedNames, issue. simpl. rewrite last_snoc. reflexivity. Qed.

Lemma persistedNames_issue_update (credential : option string)
    (organization : Organization) (names : list string) (k : Pending) (s : State) :
  persistedNames (issue (CallUpdateOrgFolder credential organization names) k s) = Some names.
Proof. unfold persistedNames, issue. simpl. rewrite last_snoc. reflexivity. Qed.

(** C6: the single-repository save persists the names of the cached
    repositories flagged pipeline-created, in their cached order, followed by
    the name of the selected repository. *)
Theorem saveSingleRepo_persists_names
    (s : State) (organization : Organization) (allRepos : list Repository)
    (repo : Repository) :
  selectedOrganization s = Some organization ->
  _repositoryCache s !! org_name organization = Some allRepos ->
  selectedRepository s = Some repo ->
  exists s',
    saveSingleRepo s = Normal s' /\
    persistedNames s' =
      Some (List.map repo_name (List.filter pipelineCreated allRepos) ++ [repo_name repo]).
Proof.
  intros Ho Hc Hr. unfold saveSingleRepo, _getFullRepoNameList.
  rewrite Ho, Hc, Hr. unfold _saveOrgFolder.
  change (selectedOrganization (setPendingSteps ?a (pushStep ?b (_setStatus ?c s))))
    with (selectedOrganization s).
  rewrite Ho. eexists. split; [reflexivity|].
  destruct (negb _).
  - apply persistedNames_issue_create.
  - apply persistedNames_issue_update.
Qed.

Lemma saveSingleRepo_persists_names_witness :
  exists s',
    saveSingleRepo stateAtRepositoryChoice = Normal s' /\
    persistedNames s' = Some ["A"; "B"; "X"]%string.
Proof.
  exact (saveSingleRepo_persists_names stateAtRepositoryChoice acme
           [repoA; repoC; repoB; repoX] repoX eq_refl eq_refl eq_refl).
Defined.

(** ** Rejections *)

(** C8 (evaluated on the code): a rejection of the credential lookup, of the
    organization listing or of a repository page reaches the end of its
    chain unhandled, with no write to the state; the chains of token creation
    and of the save end fulfilled, through their rejection handlers. *)
Theorem rejection_handlers_of_the_chains
    (error : ApiError) (organizationName : string) (subscribeId timeoutId : Z)
    (s : State) :
  findExistingCredential_chain (Rejected error) s = (s, Rejected error) /\
  listOrganizations_chain (Rejected error) s = (s, Rejected error) /\
  _loadAllRepositories_chain organizationName (Rejected error) s = (s, Rejected error) /\
  _updateRepositories_chain organizationName (Rejected error) s = (s, Rejected error) /\
  snd (createAccessToken_chain (Rejected error) s) =
    Fulfilled {| success := false; detail := responseBody error |} /\
  _saveOrgFolder_chain subscribeId timeoutId (Rejected error) s =
    (_setStatus STEP_COMPLETE_SAVING_ERROR s, Fulfilled tt).
Proof. repeat split; reflexivity. Qed.

(** ** Pagination *)

Lemma takePending_Some (P : Pending -> bool) (l : list Pending) (k : Pending)
    (rest : list Pending) :
  takePending P l = Some (k, rest) -> P k = true.
Proof.
  revert k rest. induction l as [|k0 l IH]; intros k rest; simpl; [discriminate|].
  destruct (P k0) eqn:Hk0.
  - intros [= <- _]. exact Hk0.
  - destruct (takePending P l) as [[k' rest']|]; [|discriminate].
    intros [= <- _]. eapply IH. reflexivity.
Qed.

Lemma takePending_existsb (P : Pending -> bool) (l : list Pending) :
  existsb P l = true -> exists k rest, takePending P l = Some (k, rest).
Proof.
  induction l as [|k0 l IH]; simpl; [discriminate|].
  destruct (P k0); [eauto|]. simpl. intros H.
  destruct (IH H) as (k & rest & ->). eauto.
Qed.

Lemma takePending_none (P : Pending -> bool) (l : list Pending) :
  existsb P l = false -> takePending P l = None.
Proof.
  induction l as [|k0 l IH]; simpl; [reflexivity|].
  destruct (P k0); [discriminate|]. simpl. intros H. rewrite (IH H). reflexivity.
Qed.

Lemma takePending_only_last (P : Pending -> bool) (l : list Pending) (k : Pending) :
  existsb P l = false -> P k = true -> takePending P (l ++ [k]) = Some (k, l).
Proof.
  intros Hl Hk. induction l as [|k0 l IH]; simpl in *.
  - rewrite Hk. reflexivity.
  - destruct (P k0); [discriminate|]. simpl in Hl. rewrite (IH Hl). reflexivity.
Qed.

(** A fulfilled page runs [_updateRepositories] for the organization, on
    the state without the continuation taken. *)
Lemma exec_page_fulfilled (organizationName : string) (page : RepoPage) (s s' : State) :
  exec (ListRepositoriesSettles organizationName (Fulfilled page)) s = Some s' ->
  exists rest, s' = _updateRepositories organizationName page (set_inFlight rest s).
Proof.
  unfold exec.
  destruct (takePending (isPageOf organizationName) (inFlight s)) as [[k rest]|] eqn:Ht;
    [|discriminate].
  apply takePending_Some in Ht.
  destruct k; simpl in Ht; try discriminate;
    apply String.eqb_eq in Ht; subst; intros [= <-]; exists rest; reflexivity.
Qed.

Lemma exec_page_pending (organizationName : string) (page : RepoPage) (s : State) :
  existsb (isPageOf organizationName) (inFlight s) = true ->
  exists rest,
    exec (ListRepositoriesSettles organizationName (Fulfilled page)) s =
      Some (_updateRepositories organizationName page (set_inFlight rest s)).
Proof.
  intros H. destruct (takePending_existsb _ _ H) as (k & rest & Ht).
  unfold exec. rewrite Ht. apply takePending_Some in Ht.
  destruct k; simpl in Ht; try discriminate;
    apply String.eqb_eq in Ht; subst; exists rest; reflexivity.
Qed.

Lemma _updateRepositories_repositories (organizationName : string) (page : RepoPage)
    (s : State) :
  repositories (_updateRepositories organizationName page s) = repositories s ++ items page.
Proof.
  unfold _updateRepositories.
  destruct (nextPage page); [|reflexivity..].
  cbv zeta. destruct (_discoverSelection _) as [[|]|]; reflexivity.
Qed.

Lemma _updateRepositories_cache (organizationName : string) (page : RepoPage) (s : State) :
  _repositoryCache (_updateRepositories organizationName page s) !! organizationName =
    Some (repositories s ++ items page).
Proof.
  unfold _updateRepositories.
  destruct (nextPage page);
    [cbv zeta; destruct (_discoverSelection _) as [[|]|]|..];
    apply lookup_insert_eq.
Qed.

Lemma _updateRepositories_issued (organizationName : string) (page : RepoPage) (s : State) :
  issued (_updateRepositories organizationName page s) =
    issued s ++
    match nextPage page with
    | PageNull => []
    | np => [CallListRepositories (_credentialId s) organizationName np PAGE_SIZE]
    end.
Proof.
  unfold _updateRepositories.
  destruct (nextPage page); [|reflexivity..].
  cbv zeta. rewrite app_nil_r. destruct (_discoverSelection _) as [[|]|]; reflexivity.
Qed.

Lemma _updateRepositories_inFlight (organizationName : string) (page : RepoPage) (s : State) :
  inFlight (_updateRepositories organizationName page s) =
    inFlight s ++
    match nextPage page with
    | PageNull => []
    | _ => [PendingNextPage organizationName]
    end.
Proof.
  unfold _updateRepositories.
  destruct (nextPage page); [|reflexivity..].
  cbv zeta. rewrite app_nil_r. destruct (_discoverSelection _) as [[|]|]; reflexivity.
Qed.

(** Whatever pages are delivered, they are appended in the order of their
    arrival, and after each one the cache entry is the collection. *)
Lemma run_pages_collect (organizationName : string) (pages : list RepoPage) :
  forall s s',
    run (pageResponses organizationName pages) s = Some s' ->
    repositories s' = repositories s ++ concat (List.map items pages) /\
    (pages <> [] -> _repositoryCache s' !! organizationName = Some (repositories s')).
Proof.
  induction pages as [|page pages IH]; intros s s'.
  - simpl. intros [= <-]. rewrite app_nil_r. split; [reflexivity | congruence].
  - cbn [pageResponses List.map run]. fold (pageResponses organizationName pages).
    destruct (exec (ListRepositoriesSettles organizationName (Fulfilled page)) s)
      as [s1|] eqn:He; [|discriminate].
    intros Hrun.
    apply exec_page_fulfilled in He as [rest ->].
    destruct (IH _ _ Hrun) as [Hrep Hcache].
    rewrite _updateRepositories_repositories in Hrep.
    change (repositories (set_inFlight rest s)) with (repositories s) in Hrep.
    split; [rewrite Hrep, <- app_assoc; reflexivity|]. intros _.
    destruct pages as [|page' pages].
    + simpl in Hrun. injection Hrun as <-.
      rewrite _updateRepositories_cache, _updateRepositories_repositories. reflexivity.
    + apply Hcache. discriminate.
Qed.

(** A chain of pages, each one but the last announcing a next page, is
    delivered to its end once a continuation for the organization waits. *)
Lemma run_pages_progress (organizationName : string) (pages : list RepoPage) :
  forall s,
    existsb (isPageOf organizationName) (inFlight s) = true ->
    Forall (fun page => nextPage page <> PageNull) (removelast pages) ->
    exists s', run (pageResponses organizationName pages) s = Some s'.
Proof.
  induction pages as [|page pages IH]; intros s Hpend Hchain; [simpl; eauto|].
  destruct (exec_page_pending organizationName page s Hpend) as [rest He].
  cbn [pageResponses List.map run]. fold (pageResponses organizationName pages).
  rewrite He.
  destruct pages as [|page' pages]; [simpl; eauto|].
  apply IH.
  - rewrite _updateRepositories_inFlight, existsb_app.
    change (removelast (page :: page' :: pages))
      with (page :: removelast (page' :: pages)) in Hchain.
    inversion Hchain as [|? ? Hnp _]; subst.
    destruct (nextPage page); [congruence|..];
      simpl; rewrite String.eqb_refl; apply orb_true_r.
  - change (removelast (page :: page' :: pages))
      with (page :: removelast (page' :: pages)) in Hchain.
    inversion Hchain; assumption.
Qed.

Lemma _loadAllRepositories_pending (organization : Organization) (s : State) :
  existsb (isPageOf (org_name organization)) (inFlight (_loadAllRepositories organization s))
    = true.
Proof.
  unfold _loadAllRepositories, _loadPagedRepository, issue. simpl.
  rewrite existsb_app. simpl. rewrite String.eqb_refl. apply orb_true_r.
Qed.

(** C1: for every sequence of page responses delivered to the pagination
    started by [_loadAllRepositories], after each page, the last one
    included, the repository collection is the concatenation of the items
    of the pages in the order of arrival, and the cache entry of the
    organization name is that collection; every chain of pages in which each
    page but the last announces a next page is delivered to its end. *)
Theorem pagination_collects_pages
    (organization : Organization) (pages : list RepoPage) (s : State) :
  pages <> [] ->
  let responses := pageResponses (org_name organization) pages in
  (forall s',
     run responses (_loadAllRepositories organization s) = Some s' ->
     repositories s' = concat (List.map items pages) /\
     _repositoryCache s' !! org_name organization = Some (concat (List.map items pages))) /\
  (Forall (fun page => nextPage page <> PageNull) (removelast pages) ->
   exists s', run responses (_loadAllRepositories organization s) = Some s').
Proof.
  intros Hne responses. split.
  - intros s' Hrun.
    destruct (run_pages_collect _ _ _ _ Hrun) as [Hrep Hcache].
    change (repositories (_loadAllRepositories organization s)) with (@nil Repository) in Hrep.
    simpl in Hrep. rewrite (Hcache Hne), Hrep. split; reflexivity.
  - intros Hchain. apply run_pages_progress; [|exact Hchain].
    apply _loadAllRepositories_pending.
Qed.

Lemma pagination_collects_pages_witness :
  [pageOne; pageTwo] <> [] /\
  exists s',
    run (pageResponses "acme" [pageOne; pageTwo]) (_loadAllRepositories acme initialState)
      = Some s' /\
    repositories s' = [repoA; repoC; repoB; repoX] /\
    _repositoryCache s' !! "acme" = Some [repoA; repoC; repoB; repoX].
Proof.
  assert (Hne : [pageOne; pageTwo] <> []) by discriminate.
  split; [exact Hne|].
  destruct (pagination_collects_pages acme [pageOne; pageTwo] initialState Hne)
    as [Hcollect Hprogress].
  destruct Hprogress as [s' Hrun].
  { repeat constructor. discriminate. }
  exists s'. split; [exact Hrun|]. exact (Hcollect s' Hrun).
Defined.

(** C2 (amended): a further page is requested exactly when the marker of
    the page is not [null], with that marker as the page number; a missing
    marker is not [null].  A first page whose marker is [null] ends the
    pagination after its one fetch: no further call is made, no continuation
    waits and no further page can be delivered. *)
Theorem pagination_stops_on_null_marker
    (organization : Organization) (page : RepoPage) (s : State) :
  existsb (isPageOf (org_name organization)) (inFlight s) = false ->
  let name := org_name organization in
  let first := CallListRepositories (_credentialId s) name (PageNumber FIRST_PAGE) PAGE_SIZE in
  (forall name' page' s0,
     issued (_updateRepositories name' page' s0) =
       issued s0 ++
       match nextPage page' with
       | PageNull => []
       | np => [CallListRepositories (_credentialId s0) name' np PAGE_SIZE]
       end) /\
  exists s',
    exec (ListRepositoriesSettles name (Fulfilled page)) (_loadAllRepositories organization s)
      = Some s' /\
    match nextPage page with
    | PageNull =>
        issued s' = issued s ++ [first] /\
        inFlight s' = inFlight s /\
        forall r, exec (ListRepositoriesSettles name r) s' = None
    | np =>
        issued s' =
          issued s ++ [first; CallListRepositories (_credentialId s) name np PAGE_SIZE] /\
        inFlight s' = inFlight s ++ [PendingNextPage name]
    end.
Proof.
  intros Hnone name first. subst name first.
  split; [apply _updateRepositories_issued|].
  set (name := org_name organization) in *.
  assert (Hexec :
    exec (ListRepositoriesSettles name (Fulfilled page)) (_loadAllRepositories organization s)
    = Some (_updateRepositories name page
              (set_inFlight (inFlight s) (_loadAllRepositories organization s)))).
  { unfold exec.
    change (inFlight (_loadAllRepositories organization s))
      with (inFlight s ++ [PendingFirstPage name]).
    rewrite (takePending_only_last _ _ _ Hnone) by (simpl; apply String.eqb_refl).
    reflexivity. }
  eexists. split; [exact Hexec|].
  rewrite _updateRepositories_issued, _updateRepositories_inFlight.
  change (inFlight (set_inFlight ?l ?x)) with l.
  destruct (nextPage page) eqn:Hnp.
  - rewrite !app_nil_r. repeat split.
    intros r. unfold exec. rewrite _updateRepositories_inFlight, Hnp, app_nil_r.
    change (inFlight (set_inFlight ?l ?x)) with l.
    rewrite (takePending_none _ _ Hnone). reflexivity.
  - split; [|reflexivity].
    change (issued (set_inFlight ?l (_loadAllRepositories organization s)))
      with (issued s ++ [CallListRepositories (_credentialId s) name
                           (PageNumber FIRST_PAGE) PAGE_SIZE]).
    rewrite <- app_assoc. reflexivity.
  - split; [|reflexivity].
    change (issued (set_inFlight ?l (_loadAllRepositories organization s)))
      with (issued s ++ [CallListRepositories (_credentialId s) name
                           (PageNumber FIRST_PAGE) PAGE_SIZE]).
    rewrite <- app_assoc. reflexivity.
Qed.

Lemma pagination_stops_on_null_marker_witness :
  exists s',
    exec (ListRepositoriesSettles "acme" (Fulfilled pageTwo))
         (_loadAllRepositories acme initialState) = Some s' /\
    issued s' = [CallListRepositories None "acme" (PageNumber 1) 100] /\
    inFlight s' = [] /\
    forall r, exec (ListRepositoriesSettles "acme" r) s' = None.
Proof.
  destruct (pagination_stops_on_null_marker acme pageTwo initialState eq_refl)
    as [_ [s' [Hexec Hstop]]].
  exists s'. split; [exact Hexec|]. exact Hstop.
Defined.

(** C2 as stated fails on a page whose marker is missing: the pagination
    does not stop, it fetches again, with a missing page number. *)
Lemma missing_marker_fetches_again :
  nextPage pageWithoutMarker = PageUndefined /\
  exists s',
    exec (ListRepositoriesSettles "acme" (Fulfilled pageWithoutMarker))
         (_loadAllRepositories acme initialState) = Some s' /\
    fetches s' = [CallListRepositories None "acme" (PageNumber 1) 100;
                  CallListRepositories None "acme" PageUndefined 100] /\
    inFlight s' = [PendingNextPage "acme"] /\
    inFlight s' <> [].
Proof.
  split; [reflexivity|]. eexists. split; [reflexivity|].
  split; [reflexivity|]. split; [reflexivity|]. discriminate.
Qed.

(** ** The completion listener *)

Lemma elem_of_added (id : Z) (X : gset Z) : id ∈ {[id]} ∪ X.
Proof. apply elem_of_union_l, elem_of_singleton. reflexivity. Qed.

Lemma not_elem_of_removed (id : Z) (X : gset Z) : id ∉ X ∖ {[id]}.
Proof. rewrite elem_of_difference, elem_of_singleton. tauto. Qed.

Lemma added_to_empty_removed (id : Z) : (({[id]} ∪ ∅) ∖ {[id]} : gset Z) = ∅.
Proof.
  apply set_eq. intros x.
  rewrite elem_of_difference, elem_of_union, elem_of_singleton, elem_of_empty. tauto.
Qed.

Lemma empty_removed (id : Z) : ((∅ : gset Z) ∖ {[id]}) = ∅.
Proof. apply set_eq. intros x. rewrite elem_of_difference, elem_of_empty. tauto. Qed.

Lemma truthyId_true (id : Z) : id <> 0%Z -> truthyId id = true.
Proof. intros H. unfold truthyId. apply negb_true_iff, Z.eqb_neq, H. Qed.

Lemma _cleanupListeners_held (s : State) (subscribeId timeoutId : Z) :
  _sseSubscribeId s = Some subscribeId -> _sseTimeoutId s = Some timeoutId ->
  subscribeId <> 0%Z -> timeoutId <> 0%Z ->
  _cleanupListeners s =
    set__sseTimeoutId None
      (clearTimeout timeoutId (set__sseSubscribeId None (removeHandler subscribeId s))).
Proof.
  intros Hs Ht Hi Hj. unfold _cleanupListeners.
  rewrite Hs, (truthyId_true _ Hi). cbn [_sseTimeoutId set__sseSubscribeId removeHandler
    set_sseHandlers]. rewrite Ht, (truthyId_true _ Hj). reflexivity.
Qed.

Lemma _cleanupListeners_none (s : State) :
  _sseSubscribeId s = None -> _sseTimeoutId s = None -> _cleanupListeners s = s.
Proof. intros Hs Ht. unfold _cleanupListeners. rewrite Hs, Ht. reflexivity. Qed.

Lemma sseListenersPaired_handles (s : State) : sseListenersPaired s -> handlesPaired s.
Proof.
  unfold sseListenersPaired, handlesPaired.
  destruct (_sseSubscribeId s), (_sseTimeoutId s); tauto.
Qed.

Lemma sseListenersPaired_view (s s' : State) :
  sseView s' = sseView s -> sseListenersPaired s -> sseListenersPaired s'.
Proof.
  unfold sseView, sseListenersPaired. intros [= -> -> -> ->]. tauto.
Qed.

Lemma handlesPaired_fields (s s' : State) :
  _sseSubscribeId s' = _sseSubscribeId s -> _sseTimeoutId s' = _sseTimeoutId s ->
  handlesPaired s -> handlesPaired s'.
Proof. unfold handlesPaired. intros -> ->. tauto. Qed.

(** Cleaning up releases both handles, whenever both or none are held. *)
Lemma _cleanupListeners_releases (s : State) :
  handlesPaired s ->
  let s' := _cleanupListeners s in
  _sseSubscribeId s' = None /\ _sseTimeoutId s' = None /\
  (forall id, _sseSubscribeId s = Some id -> id ∉ sseHandlers s') /\
  (forall id, _sseTimeoutId s = Some id -> id ∉ timers s').
Proof.
  unfold handlesPaired.
  destruct (_sseSubscribeId s) as [i|] eqn:Hs, (_sseTimeoutId s) as [t|] eqn:Ht;
    try contradiction.
  - intros [Hi Hj]. rewrite (_cleanupListeners_held s i t Hs Ht Hi Hj). simpl.
    repeat split; try reflexivity; intros id [= <-]; apply not_elem_of_removed.
  - intros _. rewrite (_cleanupListeners_none s Hs Ht). simpl.
    repeat split; try assumption; intros id; congruence.
Qed.

Lemma _cleanupListeners_paired (s : State) :
  handlesPaired s -> sseListenersPaired (_cleanupListeners s).
Proof.
  intros H. destruct (_cleanupListeners_releases s H) as (Hs & Ht & _).
  unfold sseListenersPaired. rewrite Hs, Ht. exact I.
Qed.

Lemma _cleanupListeners_idempotent (s : State) :
  _cleanupListeners (_cleanupListeners s) = _cleanupListeners s.
Proof.
  destruct s as [? ? ? ? ? ? ? ? ? [i|] [t|] ? ? ? ? ? ?]; unfold _cleanupListeners; simpl;
    try destruct (truthyId i) eqn:Hi; try destruct (truthyId t) eqn:Hj;
    do 3 (cbn; rewrite ?Hi, ?Hj); reflexivity.
Qed.

(** Arming installs both, whatever was there. *)
Lemma _saveOrgFolderSuccess_paired (folder : OrgFolder) (subscribeId timeoutId : Z)
    (s : State) :
  subscribeId <> 0%Z -> timeoutId <> 0%Z ->
  sseListenersPaired (_saveOrgFolderSuccess folder subscribeId timeoutId s).
Proof.
  intros Hi Hj. unfold sseListenersPaired. simpl.
  repeat split; try assumption; apply elem_of_added.
Qed.

Lemma _updateRepositories_view (organizationName : string) (page : RepoPage) (s : State) :
  sseView (_updateRepositories organizationName page s) = sseView s.
Proof.
  unfold _updateRepositories.
  destruct (nextPage page); [|reflexivity..].
  cbv zeta. destruct (_discoverSelection _) as [[|]|]; reflexivity.
Qed.

Lemma selectDiscover_view (discover : bool) (s : State) :
  sseView (state_of (selectDiscover discover s)) = sseView s.
Proof.
  unfold selectDiscover. cbv zeta.
  destruct (selectedOrganization _) as [organization|]; [|reflexivity].
  destruct (autoDiscover organization && discover); reflexivity.
Qed.

Lemma _saveOrgFolder_view (repoNames : option (list string)) (s : State) :
  sseView (state_of (_saveOrgFolder repoNames s)) = sseView s.
Proof.
  unfold _saveOrgFolder. cbv zeta.
  destruct (selectedOrganization _) as [organization|]; [|reflexivity].
  destruct (negb _); reflexivity.
Qed.

Lemma saveSingleRepo_view (s : State) :
  sseView (state_of (saveSingleRepo s)) = sseView s.
Proof.
  unfold saveSingleRepo. destruct (_getFullRepoNameList s); [|reflexivity].
  apply _saveOrgFolder_view.
Qed.

Lemma findExistingCredential_chain_view (r : Settled (option Credential)) (s : State) :
  sseView (fst (findExistingCredential_chain r s)) = sseView s.
Proof.
  destruct r as [[c|]|e]; try reflexivity.
  unfold findExistingCredential_chain, then1, settle, waitAtLeast, _afterInitialStep.
  simpl. destruct (truthyString (credentialId c)); reflexivity.
Qed.

Lemma createAccessToken_chain_view (r : Settled Credential) (s : State) :
  sseView (fst (createAccessToken_chain r s)) = sseView s.
Proof. destruct r; reflexivity. Qed.

Lemma listOrganizations_chain_view (r : Settled (list Organization)) (s : State) :
  sseView (fst (listOrganizations_chain r s)) = sseView s.
Proof. destruct r; reflexivity. Qed.

Lemma _loadAllRepositories_chain_view (organizationName : string) (r : Settled RepoPage)
    (s : State) :
  sseView (fst (_loadAllRepositories_chain organizationName r s)) = sseView s.
Proof. destruct r; [apply _updateRepositories_view | reflexivity]. Qed.

Lemma _updateRepositories_chain_view (organizationName : string) (r : Settled RepoPage)
    (s : State) :
  sseView (fst (_updateRepositories_chain organizationName r s)) = sseView s.
Proof. destruct r; [apply _updateRepositories_view | reflexivity]. Qed.

Lemma permittedAlong_always (trace : list Action) :
  forall s, permittedAlong always trace s = true.
Proof.
  induction trace as [|a trace IH]; intros s; [reflexivity|].
  cbn [permittedAlong always andb]. destruct (exec a s); [apply IH | reflexivity].
Qed.

(** A property of the listener part of the state is kept along a trace once
    it is kept by the four places that write to that part: cleaning up, the
    timeout, arming, and nothing else. *)
Section ListenerInvariant.

Variable Inv : State -> Prop.
Variable permitted : Action -> State -> bool.

Hypothesis Inv_view : forall s s', sseView s' = sseView s -> Inv s -> Inv s'.
Hypothesis Inv_cleanup : forall s, Inv s -> Inv (_cleanupListeners s).
Hypothesis Inv_timeout :
  forall s id, Inv s -> id ∈ timers s ->
    Inv (_onSseTimeout (set_timers (timers s ∖ {[id]}) s)).
Hypothesis Inv_arm :
  forall s folder subscribeId timeoutId rest,
    Inv s ->
    permitted (SaveSettles (Fulfilled folder) subscribeId timeoutId) s = true ->
    subscribeId <> 0%Z -> timeoutId <> 0%Z ->
    Inv (_saveOrgFolderSuccess folder subscribeId timeoutId (set_inFlight rest s)).

Lemma _onSseEvent_inv (event : SseEvent) (s : State) :
  Inv s -> Inv (state_of (_onSseEvent event s)).
Proof.
  intros H. unfold _onSseEvent.
  destruct (savedOrgFolder s) as [folder|]; [|exact H].
  destruct (targetsSavedFolder event folder); [|exact H].
  destruct (String.eqb (jenkins_event event) _); [|exact H].
  destruct (job_multibranch_indexing_result event) as [result|]; [|exact H].
  destruct (String.eqb result "SUCCESS");
    [|destruct (String.eqb result "FAILURE"); [|exact H]];
    simpl; apply Inv_cleanup; revert H; apply Inv_view; reflexivity.
Qed.

Lemma sseDispatch_inv (event : SseEvent) (s : State) :
  Inv s -> Inv (sseDispatch event s).
Proof.
  unfold sseDispatch. generalize (elements (sseHandlers s)) as ids.
  intros ids. revert s. induction ids as [|id ids IH]; intros s H; [exact H|].
  simpl. apply IH. destruct (decide (id ∈ sseHandlers s)); [|exact H].
  apply _onSseEvent_inv, H.
Qed.

Ltac same_view H := revert H; apply Inv_view; reflexivity.

Ltac same_view_by H lem :=
  revert H; apply Inv_view; first [apply lem | rewrite lem; reflexivity].

Lemma exec_inv (a : Action) (s s' : State) :
  exec a s = Some s' -> permitted a s = true -> Inv s -> Inv s'.
Proof.
  intros He Hp H. destruct a; cbn [exec] in He.
  - injection He as <-. same_view H.
  - injection He as <-. same_view H.
  - injection He as <-. same_view H.
  - injection He as <-. same_view_by H selectDiscover_view.
  - injection He as <-. same_view_by H _saveOrgFolder_view.
  - injection He as <-. same_view H.
  - injection He as <-. same_view_by H saveSingleRepo_view.
  - injection He as <-. apply Inv_cleanup, H.
  - destruct (takePending _ _) as [[k rest]|]; [|discriminate]. injection He as <-.
    same_view_by H findExistingCredential_chain_view.
  - destruct (takePending _ _) as [[k rest]|]; [|discriminate]. injection He as <-.
    same_view_by H createAccessToken_chain_view.
  - destruct (takePending _ _) as [[k rest]|]; [|discriminate]. injection He as <-.
    same_view_by H listOrganizations_chain_view.
  - destruct (takePending _ _) as [[k rest]|]; [|discriminate].
    destruct k; try discriminate; injection He as <-.
    + same_view_by H _loadAllRepositories_chain_view.
    + same_view_by H _updateRepositories_chain_view.
  - destruct (truthyId subscribeId) eqn:Hi; [|discriminate].
    destruct (truthyId timeoutId) eqn:Hj; [|discriminate]. cbn [andb] in He.
    destruct (takePending _ _) as [[k rest]|]; [|discriminate]. injection He as <-.
    destruct r as [folder|e].
    + apply Inv_arm; [exact H | exact Hp | |].
      * unfold truthyId in Hi. apply negb_true_iff, Z.eqb_neq in Hi. exact Hi.
      * unfold truthyId in Hj. apply negb_true_iff, Z.eqb_neq in Hj. exact Hj.
    + same_view H.
  - injection He as <-. apply sseDispatch_inv, H.
  - destruct (decide (id ∈ timers s)) as [Hin|]; [|discriminate]. injection He as <-.
    apply Inv_timeout; assumption.
Qed.

Lemma run_inv (trace : list Action) :
  forall s s',
    run trace s = Some s' -> permittedAlong permitted trace s = true ->
    Inv s -> Inv s'.
Proof.
  induction trace as [|a trace IH]; intros s s'; cbn [run permittedAlong].
  - intros [= <-]. tauto.
  - destruct (exec a s) as [s1|] eqn:He; [|discriminate].
    intros Hrun Hp H. apply andb_prop in Hp as [Hpa Hp].
    apply (IH _ _ Hrun Hp). apply (exec_inv _ _ _ He Hpa H).
Qed.

End ListenerInvariant.

Lemma run_paired (trace : list Action) (s s' : State) :
  run trace s = Some s' -> sseListenersPaired s -> sseListenersPaired s'.
Proof.
  intros Hrun. apply (run_inv sseListenersPaired always) with (trace := trace).
  - apply sseListenersPaired_view.
  - intros s0 H. apply _cleanupListeners_paired, sseListenersPaired_handles, H.
  - intros s0 id H _. apply _cleanupListeners_paired.
    apply (handlesPaired_fields s0); try reflexivity.
    apply sseListenersPaired_handles, H.
  - intros s0 folder i t rest _ _ Hi Hj. apply _saveOrgFolderSuccess_paired; assumption.
  - exact Hrun.
  - apply permittedAlong_always.
Qed.

(** As long as no save success arrives while a subscription is held, the
    handlers registered and the timeouts pending are the ones the manager
    holds, and no others. *)
Lemma run_exact (trace : list Action) (s s' : State) :
  run trace s = Some s' -> permittedAlong withoutRearming trace s = true ->
  sseListenersPaired s /\ sseEnvironmentExact s ->
  sseListenersPaired s' /\ sseEnvironmentExact s'.
Proof.
  intros Hrun Hp.
  apply (run_inv (fun x => sseListenersPaired x /\ sseEnvironmentExact x) withoutRearming)
    with (trace := trace); [| | | |exact Hrun|exact Hp].
  - intros s0 s1 Hv [H1 H2]. split; [exact (sseListenersPaired_view _ _ Hv H1)|].
    revert H2. unfold sseView, sseEnvironmentExact in *.
    injection Hv as -> -> -> ->. tauto.
  - intros s0 [H1 H2].
    split; [apply _cleanupListeners_paired, sseListenersPaired_handles, H1|].
    revert H1 H2. unfold sseListenersPaired, sseEnvironmentExact.
    destruct (_sseSubscribeId s0) as [i|] eqn:Hs, (_sseTimeoutId s0) as [t|] eqn:Ht;
      try contradiction.
    + intros (Hi & Hj & _) [Hh Htm].
      rewrite (_cleanupListeners_held s0 i t Hs Ht Hi Hj). simpl. rewrite Hh, Htm.
      cbn [from_option].
      split; apply set_eq; intros x;
        rewrite elem_of_difference, !elem_of_singleton, elem_of_empty; tauto.
    + intros _ [Hh Htm]. rewrite (_cleanupListeners_none s0 Hs Ht), Hs, Ht.
      split; assumption.
  - intros s0 id [H1 H2] Hin. split.
    { apply _cleanupListeners_paired. apply (handlesPaired_fields s0); try reflexivity.
      apply sseListenersPaired_handles, H1. }
    revert H1 H2 Hin. unfold sseListenersPaired, sseEnvironmentExact, _onSseTimeout.
    destruct (_sseSubscribeId s0) as [i|] eqn:Hs, (_sseTimeoutId s0) as [t|] eqn:Ht;
      try contradiction.
    + intros (Hi & Hj & _) [Hh Htm] _.
      rewrite (_cleanupListeners_held _ i t) by first [assumption | reflexivity].
      simpl. rewrite Hh, Htm. cbn [from_option].
      split; apply set_eq; intros x;
        rewrite !elem_of_difference, !elem_of_singleton, elem_of_empty; tauto.
    + intros _ [_ Htm] Hin. rewrite Htm in Hin. simpl in Hin.
      apply elem_of_empty in Hin. contradiction.
  - intros s0 folder i t rest [H1 H2] Hper Hi Hj.
    split; [apply _saveOrgFolderSuccess_paired; assumption|].
    revert H1 H2 Hper. unfold sseListenersPaired, sseEnvironmentExact, withoutRearming, rearms.
    destruct (_sseSubscribeId s0) as [i0|], (_sseTimeoutId s0) as [t0|];
      try contradiction; try discriminate.
    intros _ [Hh Htm] _. simpl. rewrite Hh, Htm. cbn [from_option].
    split; apply set_eq; intros x;
      rewrite elem_of_union, !elem_of_singleton, elem_of_empty; tauto.
Qed.

(** The two handles the manager holds: in every reachable state they are
    both absent or both held and live; cleaning up
    releases both together and cleaning up again changes nothing; arming on
    a save success installs both together.  In a flow where no save success
    arrives while a subscription is held, the handlers registered and the
    timeouts pending are the held ones and no others. *)
Theorem sse_subscription_and_timer_paired (s : State) :
  reachable s ->
  sseListenersPaired s /\
  (let s' := _cleanupListeners s in
   _sseSubscribeId s' = None /\ _sseTimeoutId s' = None /\
   (forall id, _sseSubscribeId s = Some id -> id ∉ sseHandlers s') /\
   (forall id, _sseTimeoutId s = Some id -> id ∉ timers s')) /\
  _cleanupListeners (_cleanupListeners s) = _cleanupListeners s /\
  (forall folder subscribeId timeoutId,
     subscribeId <> 0%Z -> timeoutId <> 0%Z ->
     let s' := _saveOrgFolderSuccess folder subscribeId timeoutId s in
     _sseSubscribeId s' = Some subscribeId /\ _sseTimeoutId s' = Some timeoutId /\
     subscribeId ∈ sseHandlers s' /\ timeoutId ∈ timers s') /\
  (forall trace,
     run trace initialState = Some s ->
     permittedAlong withoutRearming trace initialState = true ->
     sseEnvironmentExact s).
Proof.
  intros [trace Hrun].
  assert (H : sseListenersPaired s) by (apply (run_paired _ _ _ Hrun); exact I).
  split; [exact H|]. split; [|split; [|split]].
  - apply _cleanupListeners_releases, sseListenersPaired_handles, H.
  - apply _cleanupListeners_idempotent.
  - intros folder i t Hi Hj. simpl. repeat split; apply elem_of_added.
  - intros trace' Hrun' Hp.
    apply (run_exact _ _ _ Hrun' Hp). split; [exact I|]. split; reflexivity.
Qed.

Lemma sse_subscription_and_timer_paired_witness :
  reachable stateArmed /\
  sseListenersPaired stateArmed /\
  _sseSubscribeId stateArmed = Some 7%Z /\ _sseTimeoutId stateArmed = Some 9%Z /\
  _sseSubscribeId (_cleanupListeners stateArmed) = None /\
  _sseTimeoutId (_cleanupListeners stateArmed) = None /\
  sseEnvironmentExact stateArmed.
Proof.
  assert (Hr : reachable stateArmed) by (exists traceToArmed; vm_compute; reflexivity).
  destruct (sse_subscription_and_timer_paired stateArmed Hr) as (Hp & Hc & _ & _ & He).
  split; [exact Hr|]. split; [exact Hp|].
  split; [reflexivity|]. split; [reflexivity|].
  split; [exact (proj1 Hc)|]. split; [exact (proj1 (proj2 Hc))|].
  apply (He traceToArmed); vm_compute; reflexivity.
Defined.

(** C5 (evaluated on the code): the claim fails in a reachable state.
    [_saveOrgFolderSuccess] overwrites the two handles without cleaning up,
    so after a second save success while armed the first handler and the
    first timeout are held by nobody.  When the first timeout fires, the
    second pair is released and the first handler stays registered with the
    bus with no timeout pending: a subscription without its timer. *)
Theorem rearming_leaves_a_handler_without_a_timeout :
  run traceRearmed initialState = Some stateRearmed /\
  reachable stateRearmed /\
  status stateRearmed = Some STEP_COMPLETE_EVENT_TIMEOUT /\
  _sseSubscribeId stateRearmed = None /\
  _sseTimeoutId stateRearmed = None /\
  sseHandlers stateRearmed = {[7%Z]} /\
  timers stateRearmed = ∅ /\
  ~ subscriptionAndTimerTogether stateRearmed.
Proof.
  assert (Hrun : run traceRearmed initialState = Some stateRearmed)
    by (vm_compute; reflexivity).
  assert (Hh : sseHandlers stateRearmed = {[7%Z]}) by (vm_compute; reflexivity).
  assert (Ht : timers stateRearmed = ∅) by (vm_compute; reflexivity).
  split; [exact Hrun|]. split; [exists traceRearmed; exact Hrun|].
  split; [vm_compute; reflexivity|]. split; [vm_compute; reflexivity|].
  split; [vm_compute; reflexivity|]. split; [exact Hh|]. split; [exact Ht|].
  intros [_ Hback]. specialize (Hback Ht). rewrite Hh in Hback.
  assert (Hin : 7%Z ∈ ({[7%Z]} : gset Z)) by (apply elem_of_singleton; reflexivity).
  rewrite Hback in Hin. apply elem_of_empty in Hin. exact Hin.
Qed.




(** ** The sample flow *)

Example flow_issues_the_calls_in_order :
  issued stateArmed =
    [ CallFindExistingCredential;
      CallListOrganizations (Some "github"%string);
      CallListRepositories (Some "github"%string) "acme" (PageNumber 1) 100;
      CallListRepositories (Some "github"%string) "acme" (PageNumber 2) 100;
      CallCreateOrgFolder (Some "github"%string) acme ["A"; "B"; "X"]%string ].
Proof. reflexivity. Qed.

Example flow_steps :
  steps stateArmed =
    [GithubOrgListStep; GithubChooseDiscoverStep; GithubRepositoryStep; GithubCompleteStep] /\
  status stateArmed = Some STEP_COMPLETE_SUCCESS /\
  selectableRepositories stateArmed = [repoC; repoX].
Proof. repeat split; reflexivity. Qed.

Example nested_failure_ends_the_wait :
  option_map (fun s => (status s, _sseSubscribeId s, _sseTimeoutId s))
             (run (traceToArmed ++ [SseEventArrives nestedFailure]) initialState)
  = Some (Some STEP_COMPLETE_EVENT_ERROR, None, None).
Proof. reflexivity. Qed.

(** A handle that is falsy would not be released: the tests of
    [_cleanupListeners] are truthiness tests.  The actions of [exec] hand
    out truthy handles only. *)
Remark falsy_handle_is_kept (s : State) :
  _sseSubscribeId s = Some 0%Z -> _sseTimeoutId s = None -> _cleanupListeners s = s.
Proof. intros Hs Ht. unfold _cleanupListeners. rewrite Hs. simpl. rewrite Ht. reflexivity. Qed.

(** The handles the manager holds are those of the last save success: a
    second save success while armed overwrites them, and cleaning up then
    reaches the second pair only. *)
Remark second_arming_overwrites_the_handles :
  option_map (fun s => (_sseSubscribeId s, _sseTimeoutId s,
                        elements (sseHandlers s), elements (timers s)))
             (run (traceToArmed ++
                   [SaveSingleRepo; SaveSettles (Fulfilled acmeFolder) 11 13; Destroy])
                  initialState)
  = Some (None, None, [7%Z], [9%Z]).
Proof. vm_compute. reflexivity. Qed.

(** * Further properties *)

(** ** Credentials and organizations *)

(** X1: when the credential lookup started by [onInitialized] finds a
    credential with a non-empty id, the id is stored and the organizations
    are listed with it; when that listing arrives it replaces the known
    organizations, and no call is left in flight. *)
Theorem credential_found_lists_organizations
    (s : State) (credential : Credential) (orgs : list Organization) :
  inFlight s = [] ->
  credentialId credential <> ""%string ->
  exists s',
    run [ FindExistingCredentialSettles (Fulfilled (Some credential));
          ListOrganizationsSettles (Fulfilled orgs) ] (onInitialized s) = Some s' /\
    _credentialId s' = Some (credentialId credential) /\
    organizations s' = orgs /\
    issued s' =
      issued s ++ [CallFindExistingCredential;
                   CallListOrganizations (Some (credentialId credential))] /\
    inFlight s' = [].
Proof.
  intros Hin Hid.
  assert (Ht : truthyString (credentialId credential) = true)
    by (unfold truthyString; apply negb_true_iff, String.eqb_neq, Hid).
  destruct s; simpl in Hin; subst.
  unfold run, exec, onInitialized, findExistingCredential, issue. simpl.
  unfold findExistingCredential_chain, then1, settle, waitAtLeast, _afterInitialStep. simpl.
  rewrite Ht. simpl.
  eexists. split; [reflexivity|]. simpl.
  repeat split. rewrite <- app_assoc. reflexivity.
Qed.

Lemma credential_found_lists_organizations_witness :
  exists s',
    run [ FindExistingCredentialSettles (Fulfilled (Some githubCredential));
          ListOrganizationsSettles (Fulfilled [acme; globex]) ] (onInitialized initialState)
      = Some s' /\
    _credentialId s' = Some "github"%string /\
    organizations s' = [acme; globex].
Proof.
  destruct (credential_found_lists_organizations initialState githubCredential [acme; globex])
    as (s' & Hrun & Hc & Ho & _); [reflexivity | discriminate |].
  exists s'. repeat split; assumption.
Defined.

(** X2: when the lookup finds no credential, or one whose id is empty, no
    credential is stored and no further call is made: nothing is in flight
    and a listing of organizations cannot arrive. *)
Theorem credential_missing_makes_no_call (s : State) (found : option Credential) :
  inFlight s = [] ->
  found = None \/ (exists credential, found = Some credential /\ credentialId credential = ""%string) ->
  exists s',
    exec (FindExistingCredentialSettles (Fulfilled found)) (onInitialized s) = Some s' /\
    _credentialId s' = _credentialId s /\
    organizations s' = organizations s /\
    issued s' = issued s ++ [CallFindExistingCredential] /\
    inFlight s' = [] /\
    forall r, exec (ListOrganizationsSettles r) s' = None.
Proof.
  intros Hin Hf. destruct s; simpl in Hin; subst.
  destruct Hf as [->|(credential & -> & Hid)].
  - eexists. split; [reflexivity|]. simpl. repeat split.
  - unfold exec, onInitialized, findExistingCredential, issue. simpl.
    unfold findExistingCredential_chain, then1, settle, waitAtLeast, _afterInitialStep.
    simpl. rewrite Hid. simpl.
    eexists. split; [reflexivity|]. simpl. repeat split.
Qed.

Lemma credential_missing_makes_no_call_witness :
  exists s',
    exec (FindExistingCredentialSettles (Fulfilled None)) (onInitialized initialState)
      = Some s' /\
    _credentialId s' = None /\
    issued s' = [CallFindExistingCredential].
Proof.
  destruct (credential_missing_makes_no_call initialState None)
    as (s' & He & Hc & _ & Hi & _); [reflexivity | left; reflexivity |].
  exists s'. repeat split; assumption.
Defined.

(** X3: when the token is accepted, [createAccessToken] resolves to
    [{success: true}], the id of the new credential is stored without a test
    of its truthiness, and the organizations are listed with the new id, not
    with the one held before. *)
Theorem createAccessToken_fulfilled
    (s : State) (token : string) (credential : Credential) :
  inFlight s = [] ->
  snd (createAccessToken_chain (Fulfilled credential) s) =
    Fulfilled {| success := true; detail := None |} /\
  exists s',
    exec (CreateAccessTokenSettles (Fulfilled credential)) (createAccessToken token s) = Some s' /\
    _credentialId s' = Some (credentialId credential) /\
    issued s' =
      issued s ++ [CallCreateAccessToken token;
                   CallListOrganizations (Some (credentialId credential))] /\
    inFlight s' = [PendingListOrganizations].
Proof.
  intros Hin. split; [reflexivity|].
  destruct s; simpl in Hin; subst.
  eexists. split; [reflexivity|]. simpl.
  repeat split. rewrite <- app_assoc. reflexivity.
Qed.

Lemma createAccessToken_fulfilled_witness :
  exists s',
    exec (CreateAccessTokenSettles (Fulfilled {| credentialId := "" |}))
         (createAccessToken "token" initialState) = Some s' /\
    _credentialId s' = Some ""%string /\
    issued s' = [CallCreateAccessToken "token"; CallListOrganizations (Some ""%string)].
Proof.
  destruct (createAccessToken_fulfilled initialState "token" {| credentialId := "" |} eq_refl)
    as (_ & s' & He & Hc & Hi & _).
  exists s'. repeat split; assumption.
Defined.

(** ** Choosing the discovery mode *)

(** X4: with an organization selected, [selectDiscover] records the choice
    and fetches repositories unless the organization auto-discovers and the
    user opted in: in that case no call is made and the collection stays; in
    the other case the collection is emptied and page 1 is requested with
    page size 100.  The cache is neither read nor written. *)
Theorem selectDiscover_fetches_unless_auto
    (discover : bool) (organization : Organization) (s : State) :
  selectedOrganization s = Some organization ->
  exists s',
    selectDiscover discover s = Normal s' /\
    _discoverSelection s' = Some discover /\
    _repositoryCache s' = _repositoryCache s /\
    if autoDiscover organization && discover then
      status s' = Some STEP_ALREADY_DISCOVER /\
      issued s' = issued s /\
      repositories s' = repositories s
    else
      status s' = Some PENDING_LOADING_REPOSITORIES /\
      issued s' =
        issued s ++ [CallListRepositories (_credentialId s) (org_name organization)
                       (PageNumber 1) 100] /\
      repositories s' = [].
Proof.
  intros Ho. unfold selectDiscover. cbv zeta.
  change (selectedOrganization (set__discoverSelection (Some discover) s))
    with (selectedOrganization s).
  rewrite Ho. destruct (autoDiscover organization && discover);
    eexists; (split; [reflexivity|]); repeat split.
Qed.

Lemma selectDiscover_fetches_unless_auto_witness :
  (exists s', selectDiscover true (selectOrganization acme initialState) = Normal s' /\
              issued s' = [] /\ status s' = Some STEP_ALREADY_DISCOVER) /\
  (exists s', selectDiscover false (selectOrganization acme initialState) = Normal s' /\
              issued s' = [CallListRepositories None "acme" (PageNumber 1) 100]).
Proof.
  split.
  - destruct (selectDiscover_fetches_unless_auto true acme
                (selectOrganization acme initialState) eq_refl)
      as (s' & Hs & _ & _ & Hst & Hi & _).
    exists s'. repeat split; assumption.
  - destruct (selectDiscover_fetches_unless_auto false acme
                (selectOrganization acme initialState) eq_refl)
      as (s' & Hs & _ & _ & _ & Hi & _).
    exists s'. split; assumption.
Defined.

(** X5: with no organization selected, [selectDiscover] and
    [saveAutoDiscover] throw after their first writes: the choice is already
    recorded, respectively the status is already the saving status; no
    call has been made and the listeners are as they were. *)
Theorem methods_throw_without_organization (discover : bool) (s : State) :
  selectedOrganization s = None ->
  (exists s', selectDiscover discover s = Thrown s' /\
              _discoverSelection s' = Some discover /\
              status s' = status s /\ repositories s' = repositories s /\
              issued s' = issued s /\ inFlight s' = inFlight s /\
              sseView s' = sseView s) /\
  (exists s', saveAutoDiscover s = Thrown s' /\
              status s' = Some PENDING_CREATION_SAVING /\
              issued s' = issued s /\ inFlight s' = inFlight s /\
              sseView s' = sseView s).
Proof.
  intros Ho. split.
  - unfold selectDiscover. cbv zeta.
    change (selectedOrganization (set__discoverSelection (Some discover) s))
      with (selectedOrganization s).
    rewrite Ho. eexists. split; [reflexivity|]. repeat split.
  - unfold saveAutoDiscover, _saveOrgFolder. cbv zeta.
    change (selectedOrganization (setPendingSteps ?a (pushStep ?b (_setStatus ?c s))))
      with (selectedOrganization s).
    rewrite Ho. eexists. split; [reflexivity|]. repeat split.
Qed.

Lemma methods_throw_without_organization_witness :
  (exists s', selectDiscover true initialState = Thrown s' /\
              _discoverSelection s' = Some true) /\
  (exists s', saveAutoDiscover initialState = Thrown s' /\
              status s' = Some PENDING_CREATION_SAVING /\ issued s' = []).
Proof.
  destruct (methods_throw_without_organization true initialState eq_refl)
    as [(s1 & H1 & Hd & _) (s2 & H2 & Hst & Hi & _)].
  split; [exists s1 | exists s2]; repeat split; assumption.
Defined.

(** ** Loading repositories *)

Lemma takePending_first_match (P : Pending -> bool) (l l' : list Pending) (k : Pending) :
  existsb P l = false -> P k = true -> takePending P (l ++ k :: l') = Some (k, l ++ l').
Proof.
  intros Hl Hk. induction l as [|k0 l IH]; simpl in *.
  - rewrite Hk. reflexivity.
  - destruct (P k0); [discriminate|]. simpl in Hl. rewrite (IH Hl). reflexivity.
Qed.

Lemma _updateRepositories_status_final (organizationName : string) (page : RepoPage)
    (s : State) :
  nextPage page = PageNull ->
  status (_updateRepositories organizationName page s) =
    Some (match _discoverSelection s with
          | Some true => STEP_CONFIRM_DISCOVER
          | _ => STEP_CHOOSE_REPOSITORY
          end).
Proof.
  intros Hnp. unfold _updateRepositories. rewrite Hnp. cbv zeta.
  change (_discoverSelection (set__repositoryCache ?a (set_repositories ?b s)))
    with (_discoverSelection s).
  destruct (_discoverSelection s) as [[|]|]; reflexivity.
Qed.

(** X6: when [selectDiscover] starts a load and the first page is the last
    one, the flow arrives at the confirmation of the discovery if the user
    opted in and at the choice of a repository otherwise; the collection is
    the page and nothing is left in flight for the organization. *)
Theorem single_page_load_ends_by_choice
    (discover : bool) (organization : Organization) (page : RepoPage) (s : State) :
  selectedOrganization s = Some organization ->
  autoDiscover organization && discover = false ->
  nextPage page = PageNull ->
  existsb (isPageOf (org_name organization)) (inFlight s) = false ->
  exists s1 s',
    selectDiscover discover s = Normal s1 /\
    exec (ListRepositoriesSettles (org_name organization) (Fulfilled page)) s1 = Some s' /\
    status s' = Some (if discover then STEP_CONFIRM_DISCOVER else STEP_CHOOSE_REPOSITORY) /\
    repositories s' = items page /\
    _repositoryCache s' !! org_name organization = Some (items page) /\
    inFlight s' = inFlight s.
Proof.
  intros Ho Hauto Hnp Hnone. unfold selectDiscover. cbv zeta.
  change (selectedOrganization (set__discoverSelection (Some discover) s))
    with (selectedOrganization s).
  rewrite Ho, Hauto. eexists. eexists. split; [reflexivity|].
  unfold exec.
  change (inFlight (pushStep ?a (_loadAllRepositories organization
            (set__discoverSelection (Some discover) s))))
    with (inFlight s ++ [PendingFirstPage (org_name organization)]).
  rewrite (takePending_only_last _ _ _ Hnone) by (simpl; apply String.eqb_refl).
  split; [reflexivity|].
  unfold _loadAllRepositories_chain, then1, settle, waitAtLeast. cbn [fst].
  rewrite _updateRepositories_status_final by exact Hnp.
  rewrite _updateRepositories_repositories, _updateRepositories_cache,
    _updateRepositories_inFlight, Hnp, app_nil_r.
  repeat split.
Qed.

Lemma single_page_load_ends_by_choice_witness :
  exists s1 s',
    selectDiscover true stateWithGlobexSelected = Normal s1 /\
    exec (ListRepositoriesSettles "globex" (Fulfilled pageTwo)) s1 = Some s' /\
    status s' = Some STEP_CONFIRM_DISCOVER /\
    repositories s' = [repoB; repoX].
Proof.
  destruct (single_page_load_ends_by_choice true globex pageTwo stateWithGlobexSelected
              eq_refl eq_refl eq_refl eq_refl)
    as (s1 & s' & H1 & H2 & Hst & Hr & _).
  exists s1, s'. repeat split; assumption.
Defined.

Lemma _updateRepositories_cache_other (organizationName other : string) (page : RepoPage)
    (s : State) :
  other <> organizationName ->
  _repositoryCache (_updateRepositories organizationName page s) !! other =
    _repositoryCache s !! other.
Proof.
  intros Hne. unfold _updateRepositories.
  destruct (nextPage page);
    [cbv zeta; destruct (_discoverSelection _) as [[|]|]|..];
    apply lookup_insert_ne; congruence.
Qed.

(** X7: loading the repositories of one organization leaves the cache
    entries of every other organization as they are: starting the load
    writes no entry, and each page writes the entry of its organization
    only. *)
Theorem pagination_keeps_other_cache_entries
    (organization : Organization) (other : string) (pages : list RepoPage) (s s' : State) :
  other <> org_name organization ->
  run (pageResponses (org_name organization) pages) (_loadAllRepositories organization s)
    = Some s' ->
  _repositoryCache s' !! other = _repositoryCache s !! other.
Proof.
  intros Hne.
  change (_repositoryCache s) with (_repositoryCache (_loadAllRepositories organization s)).
  generalize (_loadAllRepositories organization s) as s0.
  induction pages as [|page pages IH]; intros s0.
  - simpl. intros [= <-]. reflexivity.
  - cbn [pageResponses List.map run]. fold (pageResponses (org_name organization) pages).
    destruct (exec (ListRepositoriesSettles (org_name organization) (Fulfilled page)) s0)
      as [s1|] eqn:He; [|discriminate].
    intros Hrun. rewrite (IH _ Hrun).
    apply exec_page_fulfilled in He as [rest ->].
    rewrite _updateRepositories_cache_other by exact Hne. reflexivity.
Qed.

Lemma pagination_keeps_other_cache_entries_witness :
  exists s',
    run (pageResponses "acme" [pageOne; pageTwo])
        (_loadAllRepositories acme stateWithGlobexCached) = Some s' /\
    _repositoryCache s' !! "globex"%string = Some [repoC].
Proof.
  destruct (run (pageResponses "acme" [pageOne; pageTwo])
                (_loadAllRepositories acme stateWithGlobexCached)) as [s'|] eqn:Hrun;
    [|vm_compute in Hrun; discriminate].
  exists s'. split; [reflexivity|].
  rewrite (pagination_keeps_other_cache_entries acme "globex" [pageOne; pageTwo]
             stateWithGlobexCached s' ltac:(discriminate) Hrun).
  vm_compute. reflexivity.
Defined.

(** X8: the collection is shared by all loads.  When a second load is
    started before the page of the first has arrived, the late page of the
    first organization is appended to the collection emptied for the second,
    and the cache entry of the second organization holds the repositories of
    both. *)
Theorem overlapping_loads_share_the_collection
    (first second : Organization) (pageFirst pageSecond : RepoPage) (s : State) :
  org_name first <> org_name second ->
  existsb (isPageOf (org_name first)) (inFlight s) = false ->
  existsb (isPageOf (org_name second)) (inFlight s) = false ->
  exists s',
    run [ ListRepositoriesSettles (org_name first) (Fulfilled pageFirst);
          ListRepositoriesSettles (org_name second) (Fulfilled pageSecond) ]
        (_loadAllRepositories second (_loadAllRepositories first s)) = Some s' /\
    repositories s' = items pageFirst ++ items pageSecond /\
    _repositoryCache s' !! org_name first = Some (items pageFirst) /\
    _repositoryCache s' !! org_name second = Some (items pageFirst ++ items pageSecond).
Proof.
  intros Hne Hf Hs.
  assert (Hsf : isPageOf (org_name second) (PendingNextPage (org_name first)) = false)
    by (simpl; apply String.eqb_neq; exact Hne).
  assert (He1 :
    exec (ListRepositoriesSettles (org_name first) (Fulfilled pageFirst))
         (_loadAllRepositories second (_loadAllRepositories first s))
    = Some (_updateRepositories (org_name first) pageFirst
              (set_inFlight (inFlight s ++ [PendingFirstPage (org_name second)])
                 (_loadAllRepositories second (_loadAllRepositories first s))))).
  { unfold exec.
    change (inFlight (_loadAllRepositories second (_loadAllRepositories first s)))
      with ((inFlight s ++ [PendingFirstPage (org_name first)])
              ++ [PendingFirstPage (org_name second)]).
    rewrite <- app_assoc. cbn [app].
    rewrite (takePending_first_match _ _ _ _ Hf) by (simpl; apply String.eqb_refl).
    reflexivity. }
  set (s1 := _updateRepositories (org_name first) pageFirst _) in He1.
  assert (Hin1 : exists tail,
    inFlight s1 = (inFlight s ++ [PendingFirstPage (org_name second)]) ++ tail /\
    existsb (isPageOf (org_name second)) tail = false).
  { subst s1. rewrite _updateRepositories_inFlight.
    change (inFlight (set_inFlight ?l ?x)) with l.
    destruct (nextPage pageFirst); eexists; (split; [reflexivity|]);
      simpl; rewrite ?orb_false_r; first [reflexivity | apply String.eqb_neq; exact Hne]. }
  destruct Hin1 as (tail & Hin1 & Htail).
  assert (He2 :
    exec (ListRepositoriesSettles (org_name second) (Fulfilled pageSecond)) s1
    = Some (_updateRepositories (org_name second) pageSecond
              (set_inFlight (inFlight s ++ tail) s1))).
  { unfold exec. rewrite Hin1, <- app_assoc. cbn [app].
    rewrite (takePending_first_match _ _ _ _ Hs) by (simpl; apply String.eqb_refl).
    reflexivity. }
  eexists. cbn [run]. rewrite He1, He2. split; [reflexivity|].
  rewrite _updateRepositories_repositories, _updateRepositories_cache,
    _updateRepositories_cache_other by exact Hne.
  change (repositories (set_inFlight ?l ?x)) with (repositories x).
  change (_repositoryCache (set_inFlight ?l ?x)) with (_repositoryCache x).
  subst s1. rewrite _updateRepositories_repositories, _updateRepositories_cache.
  repeat split.
Qed.

Lemma overlapping_loads_share_the_collection_witness :
  exists s',
    run [ ListRepositoriesSettles "acme" (Fulfilled pageTwo);
          ListRepositoriesSettles "globex" (Fulfilled pageWithoutMarker) ]
        (_loadAllRepositories globex (_loadAllRepositories acme initialState)) = Some s' /\
    repositories s' = [repoB; repoX; repoA] /\
    _repositoryCache s' !! "globex"%string = Some [repoB; repoX; repoA].
Proof.
  destruct (overlapping_loads_share_the_collection acme globex pageTwo pageWithoutMarker
              initialState)
    as (s' & Hrun & Hr & _ & Hc); [discriminate | reflexivity | reflexivity |].
  exists s'. repeat split; assumption.
Defined.

(** ** Saving *)

(** X9: with an organization selected, the save sets the saving status and
    makes one call, with the credential held, the selected organization and
    the given names: [updateOrgFolder] when the organization has a pipeline
    (a true flag or an object), [createOrgFolder] otherwise.  The auto-discover
    save passes the empty list. *)
Theorem save_creates_or_updates
    (repoNames : option (list string)) (organization : Organization) (s : State) :
  selectedOrganization s = Some organization ->
  let call names :=
    if truthyPipeline (jenkinsOrganizationPipeline organization)
    then CallUpdateOrgFolder (_credentialId s) organization names
    else CallCreateOrgFolder (_credentialId s) organization names in
  (exists s',
     _saveOrgFolder repoNames s = Normal s' /\
     status s' = Some PENDING_CREATION_SAVING /\
     issued s' = issued s ++ [call (default [] repoNames)] /\
     inFlight s' = inFlight s ++ [PendingSave]) /\
  (exists s',
     saveAutoDiscover s = Normal s' /\
     issued s' = issued s ++ [call []]).
Proof.
  intros Ho call.
  assert (H : forall names, exists s',
     _saveOrgFolder names s = Normal s' /\
     status s' = Some PENDING_CREATION_SAVING /\
     issued s' = issued s ++ [call (default [] names)] /\
     inFlight s' = inFlight s ++ [PendingSave]).
  { intros names. unfold _saveOrgFolder. cbv zeta.
    change (selectedOrganization (setPendingSteps ?a (pushStep ?b (_setStatus ?c s))))
      with (selectedOrganization s).
    rewrite Ho. subst call. cbv beta.
    destruct (truthyPipeline (jenkinsOrganizationPipeline organization));
      eexists; (split; [reflexivity|]); repeat split. }
  split; [apply H|].
  destruct (H None) as (s' & Hs & _ & Hi & _). exists s'. split; assumption.
Qed.

Lemma save_creates_or_updates_witness :
  (exists s', saveAutoDiscover stateWithGlobexSelected = Normal s' /\
              issued s' = [CallUpdateOrgFolder None globex []]) /\
  (exists s', saveAutoDiscover (selectOrganization acme initialState) = Normal s' /\
              issued s' = [CallCreateOrgFolder None acme []]).
Proof.
  split.
  - destruct (save_creates_or_updates None globex stateWithGlobexSelected eq_refl)
      as [_ (s' & Hs & Hi)].
    exists s'. split; assumption.
  - destruct (save_creates_or_updates None acme (selectOrganization acme initialState) eq_refl)
      as [_ (s' & Hs & Hi)].
    exists s'. split; assumption.
Defined.

(** X10: [saveSingleRepo] throws exactly when no organization is selected,
    the cache has no entry for the selected organization, or no repository is
    selected; it then has written nothing and made no call. *)
Theorem saveSingleRepo_throws_iff (s : State) :
  ((exists s', saveSingleRepo s = Thrown s') <->
   selectedOrganization s = None \/
   (exists organization, selectedOrganization s = Some organization /\
                         _repositoryCache s !! org_name organization = None) \/
   selectedRepository s = None) /\
  (forall s', saveSingleRepo s = Thrown s' -> s' = s).
Proof.
  unfold saveSingleRepo, _getFullRepoNameList, _saveOrgFolder. cbv zeta.
  change (selectedOrganization (setPendingSteps ?a (pushStep ?b (_setStatus ?c s))))
    with (selectedOrganization s).
  destruct (selectedOrganization s) as [organization|] eqn:Ho.
  - destruct (_repositoryCache s !! org_name organization) as [allRepos|] eqn:Hc.
    + destruct (selectedRepository s) as [repo|] eqn:Hr.
      * cbv beta iota. split.
        -- split; [intros [s' H]; discriminate|].
           intros [H|[(o & [= <-] & H)|H]]; congruence.
        -- intros s' H. discriminate.
      * split; [|intros s' [= <-]; reflexivity].
        split; [intros _; right; right; reflexivity | intros _; eauto].
    + split; [|intros s' [= <-]; reflexivity].
      split; [intros _; right; left; eauto | intros _; eauto].
  - split; [|intros s' [= <-]; reflexivity].
    split; [intros _; left; reflexivity | intros _; eauto].
Qed.

Lemma names_of_filter_created (allRepos : list Repository) (name : string) :
  In name (List.map repo_name (List.filter pipelineCreated allRepos)) <->
  exists repo, In repo allRepos /\ pipelineCreated repo = true /\ repo_name repo = name.
Proof.
  rewrite in_map_iff. split.
  - intros (repo & Hn & Hin). apply filter_In in Hin as [Hin Hc]. eauto.
  - intros (repo & Hin & Hc & Hn). exists repo. split; [exact Hn|].
    apply filter_In. split; assumption.
Qed.

Lemma NoDup_names_filter (f : Repository -> bool) (allRepos : list Repository) :
  List.NoDup (List.map repo_name allRepos) ->
  List.NoDup (List.map repo_name (List.filter f allRepos)).
Proof.
  induction allRepos as [|repo allRepos IH]; simpl; [intros; constructor|].
  intros Hnd. inversion Hnd as [|? ? Hnotin Hnd']; subst.
  destruct (f repo); [|apply IH; exact Hnd'].
  simpl. constructor; [|apply IH; exact Hnd'].
  intros Hin. apply Hnotin. apply in_map_iff in Hin as (r & Hn & Hin).
  apply filter_In in Hin as [Hin _]. apply in_map_iff. eauto.
Qed.

Lemma same_name_same_repo (allRepos : list Repository) (a b : Repository) :
  List.NoDup (List.map repo_name allRepos) ->
  In a allRepos -> In b allRepos -> repo_name a = repo_name b -> a = b.
Proof.
  induction allRepos as [|repo allRepos IH]; simpl; [contradiction|].
  intros Hnd Ha Hb Hn. inversion Hnd as [|? ? Hnotin Hnd']; subst.
  destruct Ha as [<-|Ha], Hb as [<-|Hb]; try reflexivity.
  - exfalso. apply Hnotin. rewrite Hn. apply in_map. exact Hb.
  - exfalso. apply Hnotin. rewrite <- Hn. apply in_map. exact Ha.
  - apply IH; assumption.
Qed.

Lemma NoDup_snoc (l : list string) (x : string) :
  List.NoDup l -> ~ In x l -> List.NoDup (l ++ [x]).
Proof.
  induction l as [|y l IH]; simpl; intros Hnd Hx.
  - constructor; [intros []|constructor].
  - inversion Hnd as [|? ? Hy Hnd']; subst. constructor.
    + rewrite in_app_iff. simpl. intros [H|[H|[]]]; [contradiction|].
      apply Hx. left. symmetry. exact H.
    + apply IH; [exact Hnd'|]. intros H. apply Hx. right. exact H.
Qed.

(** X11: when the cached repositories have distinct names and the selected
    repository is one of them that is not pipeline-created, the name list to
    persist has no name twice; it holds the selected name and the name of
    every pipeline-created repository of the cache, and nothing else. *)
Theorem full_name_list_without_duplicates
    (s : State) (organization : Organization) (allRepos : list Repository)
    (repo : Repository) :
  selectedOrganization s = Some organization ->
  _repositoryCache s !! org_name organization = Some allRepos ->
  selectedRepository s = Some repo ->
  List.NoDup (List.map repo_name allRepos) ->
  In repo allRepos ->
  pipelineCreated repo = false ->
  exists names,
    _getFullRepoNameList s = Some names /\
    List.NoDup names /\
    (forall name, In name names <->
       name = repo_name repo \/
       exists r, In r allRepos /\ pipelineCreated r = true /\ repo_name r = name).
Proof.
  intros Ho Hc Hr Hnd Hin Hnc. unfold _getFullRepoNameList. rewrite Ho, Hc, Hr.
  eexists. split; [reflexivity|]. split.
  - apply NoDup_snoc; [apply NoDup_names_filter, Hnd|].
    intros Hname. apply names_of_filter_created in Hname as (r & Hrin & Hrc & Hrn).
    assert (r = repo) by (apply (same_name_same_repo allRepos); assumption).
    subst r. congruence.
  - intros name. rewrite in_app_iff, names_of_filter_created. simpl.
    split; [intros [H|[H|[]]]; eauto | intros [H|H]; eauto].
Qed.

Lemma full_name_list_without_duplicates_witness :
  exists names,
    _getFullRepoNameList stateAtRepositoryChoice = Some names /\
    List.NoDup names /\
    In "B"%string names /\ In "X"%string names.
Proof.
  destruct (full_name_list_without_duplicates stateAtRepositoryChoice acme
              [repoA; repoC; repoB; repoX] repoX eq_refl eq_refl eq_refl)
    as (names & Hn & Hnd & Hmem).
  - repeat constructor; simpl; intuition discriminate.
  - simpl. tauto.
  - reflexivity.
  - exists names. split; [exact Hn|]. split; [exact Hnd|]. split; apply Hmem.
    + right. exists repoB. simpl. tauto.
    + left. reflexivity.
Defined.

(** X12: the selection is not checked against the selectable repositories:
    when the selected repository is a cached one that is already
    pipeline-created, its name is in the list to persist twice. *)
Theorem full_name_list_repeats_a_created_selection
    (s : State) (organization : Organization) (allRepos : list Repository)
    (repo : Repository) :
  selectedOrganization s = Some organization ->
  _repositoryCache s !! org_name organization = Some allRepos ->
  selectedRepository s = Some repo ->
  In repo allRepos ->
  pipelineCreated repo = true ->
  exists names,
    _getFullRepoNameList s = Some names /\
    ~ List.NoDup names /\
    (count_occ string_dec names (repo_name repo) >= 2)%nat.
Proof.
  intros Ho Hc Hr Hin Hcr. unfold _getFullRepoNameList. rewrite Ho, Hc, Hr.
  eexists. split; [reflexivity|].
  assert (Hname : In (repo_name repo)
                     (List.map repo_name (List.filter pipelineCreated allRepos))).
  { apply names_of_filter_created. eauto. }
  split.
  - intros Hnd. apply NoDup_remove_2 in Hnd. apply Hnd.
    rewrite app_nil_r. exact Hname.
  - rewrite count_occ_app. simpl.
    destruct (string_dec (repo_name repo) (repo_name repo)); [|congruence].
    apply (count_occ_In string_dec) in Hname.
    change (List.map (fun r => repo_name r) (List.filter (fun r => pipelineCreated r) allRepos))
      with (List.map repo_name (List.filter pipelineCreated allRepos)).
    lia.
Qed.

Lemma full_name_list_repeats_a_created_selection_witness :
  _getFullRepoNameList stateWithCreatedSelected = Some ["A"; "B"; "A"]%string /\
  exists names,
    _getFullRepoNameList stateWithCreatedSelected = Some names /\ ~ List.NoDup names.
Proof.
  split; [reflexivity|].
  destruct (full_name_list_repeats_a_created_selection stateWithCreatedSelected acme
              [repoA; repoC; repoB; repoX] repoA eq_refl eq_refl eq_refl)
    as (names & Hn & Hnd & _).
  - simpl. tauto.
  - reflexivity.
  - exists names. split; assumption.
Defined.

(** ** Terminal events *)

Lemma _onSseEvent_terminal (event : SseEvent) (folder : OrgFolder) (s : State) :
  savedOrgFolder s = Some folder ->
  terminalEvent folder event = true ->
  _onSseEvent event s =
    Normal (_cleanupListeners (_setStatus (terminalStatus event) s)).
Proof.
  intros Hf Ht. unfold _onSseEvent, terminalEvent, terminalStatus in *. rewrite Hf.
  apply andb_prop in Ht as [Ht Hres]. apply andb_prop in Ht as [-> ->].
  destruct (job_multibranch_indexing_result event) as [result|]; [|discriminate].
  destruct (String.eqb result "SUCCESS"); [reflexivity|].
  simpl in Hres. rewrite Hres. reflexivity.
Qed.

Lemma added_to_empty (id : Z) : ({[id]} ∪ ∅ : gset Z) = {[id]}.
Proof.
  apply set_eq. intros x. rewrite elem_of_union, elem_of_empty. tauto.
Qed.

Lemma sseDispatch_single_handler (event : SseEvent) (id : Z) (s : State) :
  sseHandlers s = {[id]} ->
  sseDispatch event s = state_of (_onSseEvent event s).
Proof.
  intros Hh. unfold sseDispatch. rewrite Hh, elements_singleton. simpl.
  destruct (decide (id ∈ sseHandlers s)) as [_|Hn]; [reflexivity|].
  exfalso. apply Hn. rewrite Hh. apply elem_of_singleton. reflexivity.
Qed.

(** X13: after arming, a matching [job_run_queue_task_complete] event with
    result SUCCESS or FAILURE sets the success status, respectively the
    event-error status, and releases the subscription and the timer: the
    timeout can no longer fire and a later event changes nothing. *)
Theorem terminal_event_ends_the_wait
    (s : State) (folder : OrgFolder) (subscribeId timeoutId : Z) (event : SseEvent) :
  disarmed s ->
  subscribeId <> 0%Z -> timeoutId <> 0%Z ->
  terminalEvent folder event = true ->
  let armed := _saveOrgFolderSuccess folder subscribeId timeoutId s in
  exists s',
    exec (SseEventArrives event) armed = Some s' /\
    status s' = Some (terminalStatus event) /\
    disarmed s' /\
    (forall id, exec (TimeoutFires id) s' = None) /\
    (forall later, exec (SseEventArrives later) s' = Some s').
Proof.
  intros (_ & _ & Hh & Ht) Hi Hj Hterm armed.
  assert (Hha : sseHandlers armed = {[subscribeId]})
    by (simpl; rewrite Hh; apply added_to_empty).
  cbn [exec]. rewrite (sseDispatch_single_handler event subscribeId armed Hha).
  rewrite (_onSseEvent_terminal event folder armed eq_refl Hterm). cbn [state_of].
  rewrite (_cleanupListeners_held _ subscribeId timeoutId)
    by first [reflexivity | assumption].
  assert (Hh' : sseHandlers armed ∖ {[subscribeId]} = ∅)
    by (simpl; rewrite Hh; apply added_to_empty_removed).
  assert (Ht' : timers armed ∖ {[timeoutId]} = ∅)
    by (simpl; rewrite Ht; apply added_to_empty_removed).
  eexists. split; [reflexivity|]. split; [reflexivity|].
  split; [repeat split; assumption|]. split.
  - intros id. cbn [exec].
    destruct (decide (id ∈ _)) as [Hin|]; [|reflexivity].
    exfalso. simpl in Hin. simpl in Ht'. rewrite Ht' in Hin.
    apply elem_of_empty in Hin. exact Hin.
  - intros later. cbn [exec]. f_equal. apply sseDispatch_no_handler. exact Hh'.
Qed.

Lemma terminal_event_ends_the_wait_witness :
  disarmed stateSaving /\
  exists s',
    exec (SseEventArrives nestedFailure) (_saveOrgFolderSuccess acmeFolder 7 9 stateSaving)
      = Some s' /\
    status s' = Some STEP_COMPLETE_EVENT_ERROR /\
    exec (TimeoutFires 9) s' = None.
Proof.
  assert (Hd : disarmed stateSaving) by (repeat split; reflexivity).
  split; [exact Hd|].
  destruct (terminal_event_ends_the_wait stateSaving acmeFolder 7 9 nestedFailure Hd)
    as (s' & He & Hst & _ & Hto & _); [discriminate | discriminate | reflexivity |].
  exists s'. split; [exact He|]. split; [exact Hst | apply Hto].
Defined.

(** ** The handler and the saved folder *)

Lemma _cleanupListeners_frame (s : State) :
  savedOrgFolder (_cleanupListeners s) = savedOrgFolder s /\
  inFlight (_cleanupListeners s) = inFlight s /\
  issued (_cleanupListeners s) = issued s /\
  status (_cleanupListeners s) = status s /\
  (sseHandlers s = ∅ -> sseHandlers (_cleanupListeners s) = ∅).
Proof.
  destruct s as [? ? ? ? ? ? ? ? ? [i|] [t|] ? ? ? ? ? ?]; unfold _cleanupListeners;
    try destruct (truthyId i) eqn:Hi; try destruct (truthyId t) eqn:Hj;
    do 3 (cbn; rewrite ?Hi, ?Hj);
    (split; [reflexivity|]); (split; [reflexivity|]); (split; [reflexivity|]);
    (split; [reflexivity|]); intros H;
    first [exact H | rewrite H; apply empty_removed].
Qed.

Lemma handlerHasFolder_cleanup (s : State) :
  handlerHasFolder s -> handlerHasFolder (_cleanupListeners s).
Proof.
  destruct (_cleanupListeners_frame s) as (Hf & _ & _ & _ & Hh).
  unfold handlerHasFolder. rewrite Hf. intros [H|H]; [left; exact H | right; exact (Hh H)].
Qed.

Lemma handlerHasFolder_same (s s' : State) :
  savedOrgFolder s' = savedOrgFolder s -> sseHandlers s' = sseHandlers s ->
  handlerHasFolder s -> handlerHasFolder s'.
Proof. unfold handlerHasFolder. intros -> ->. tauto. Qed.

Lemma handlerHasFolder_onSseEvent (event : SseEvent) (s : State) :
  handlerHasFolder s -> handlerHasFolder (state_of (_onSseEvent event s)).
Proof.
  intros H. unfold _onSseEvent.
  destruct (savedOrgFolder s) as [folder|] eqn:Hf; [|exact H].
  destruct (targetsSavedFolder event folder); [|exact H].
  destruct (String.eqb (jenkins_event event) _); [|exact H].
  destruct (job_multibranch_indexing_result event) as [result|]; [|exact H].
  destruct (String.eqb result "SUCCESS");
    [|destruct (String.eqb result "FAILURE"); [|exact H]];
    simpl; apply handlerHasFolder_cleanup; revert H;
    apply handlerHasFolder_same; reflexivity.
Qed.

Lemma handlerHasFolder_dispatch (event : SseEvent) (s : State) :
  handlerHasFolder s -> handlerHasFolder (sseDispatch event s).
Proof.
  unfold sseDispatch. generalize (elements (sseHandlers s)) as ids.
  intros ids. revert s. induction ids as [|id ids IH]; intros s H; [exact H|].
  simpl. apply IH. destruct (decide (id ∈ sseHandlers s)); [|exact H].
  apply handlerHasFolder_onSseEvent, H.
Qed.

Lemma _updateRepositories_part (organizationName : string) (page : RepoPage) (s : State) :
  listenerPart (_updateRepositories organizationName page s) = listenerPart s.
Proof.
  unfold _updateRepositories.
  destruct (nextPage page); [|reflexivity..].
  cbv zeta. destruct (_discoverSelection _) as [[|]|]; reflexivity.
Qed.

(** What an action does to the listener part and the saved folder. *)
Lemma exec_listener_cases (a : Action) (s s' : State) :
  exec a s = Some s' ->
  listenerPart s' = listenerPart s \/
  s' = _cleanupListeners s \/
  (exists folder subscribeId timeoutId s0,
     s' = _saveOrgFolderSuccess folder subscribeId timeoutId s0) \/
  (exists event, s' = sseDispatch event s) \/
  (exists id, s' = _onSseTimeout (set_timers (timers s ∖ {[id]}) s)).
Proof.
  intros He. destruct a; cbn [exec] in He.
  - injection He as <-. left. reflexivity.
  - injection He as <-. left. reflexivity.
  - injection He as <-. left. reflexivity.
  - injection He as <-. left. unfold selectDiscover. cbv zeta.
    destruct (selectedOrganization _) as [organization|]; [|reflexivity].
    destruct (autoDiscover organization && discover); reflexivity.
  - injection He as <-. left. unfold saveAutoDiscover, _saveOrgFolder. cbv zeta.
    destruct (selectedOrganization _) as [organization|]; [|reflexivity].
    destruct (negb _); reflexivity.
  - injection He as <-. left. reflexivity.
  - injection He as <-. left. unfold saveSingleRepo.
    destruct (_getFullRepoNameList s); [|reflexivity].
    unfold _saveOrgFolder. cbv zeta.
    destruct (selectedOrganization _) as [organization|]; [|reflexivity].
    destruct (negb _); reflexivity.
  - injection He as <-. right. left. reflexivity.
  - destruct (takePending _ _) as [[k rest]|]; [|discriminate]. injection He as <-.
    left. destruct r as [[c|]|e]; try reflexivity.
    unfold findExistingCredential_chain, then1, settle, waitAtLeast, _afterInitialStep.
    simpl. destruct (truthyString (credentialId c)); reflexivity.
  - destruct (takePending _ _) as [[k rest]|]; [|discriminate]. injection He as <-.
    left. destruct r; reflexivity.
  - destruct (takePending _ _) as [[k rest]|]; [|discriminate]. injection He as <-.
    left. destruct r; reflexivity.
  - destruct (takePending _ _) as [[k rest]|]; [|discriminate].
    destruct k; try discriminate; injection He as <-; left;
      (destruct r; [|reflexivity]);
      unfold _loadAllRepositories_chain, _updateRepositories_chain, then1, settle,
        waitAtLeast; cbn [fst]; rewrite _updateRepositories_part; reflexivity.
  - destruct (truthyId subscribeId && truthyId timeoutId); [|discriminate].
    destruct (takePending _ _) as [[k rest]|]; [|discriminate]. injection He as <-.
    destruct r as [folder|e]; [|left; reflexivity].
    right. right. left. eauto.
  - injection He as <-. right. right. right. left. eauto.
  - destruct (decide (id ∈ timers s)); [|discriminate]. injection He as <-.
    right. right. right. right. eauto.
Qed.

Lemma handlerHasFolder_exec (a : Action) (s s' : State) :
  exec a s = Some s' -> handlerHasFolder s -> handlerHasFolder s'.
Proof.
  intros He H.
  destruct (exec_listener_cases a s s' He)
    as [Hp|[->|[(folder & i & t & s0 & ->)|[(event & ->)|(id & ->)]]]].
  - unfold listenerPart, sseView in Hp. injection Hp as _ _ Hh _ Hf.
    revert H. apply handlerHasFolder_same; assumption.
  - apply handlerHasFolder_cleanup, H.
  - left. simpl. eauto.
  - apply handlerHasFolder_dispatch, H.
  - apply handlerHasFolder_cleanup. revert H. apply handlerHasFolder_same; reflexivity.
Qed.

Lemma handlerHasFolder_run (trace : list Action) :
  forall s s', run trace s = Some s' -> handlerHasFolder s -> handlerHasFolder s'.
Proof.
  induction trace as [|a trace IH]; intros s s'; cbn [run].
  - intros [= <-]. tauto.
  - destruct (exec a s) as [s1|] eqn:He; [|discriminate].
    intros Hrun H. apply (IH _ _ Hrun). apply (handlerHasFolder_exec _ _ _ He H).
Qed.

(** X14: in every reachable state in which a handler is registered with
    the bus, an org folder is saved, so the handler, which reads the self
    link of the saved folder, returns for every event and does not throw. *)
Theorem handler_runs_with_a_saved_folder (s : State) (id : Z) :
  reachable s ->
  id ∈ sseHandlers s ->
  (exists folder, savedOrgFolder s = Some folder) /\
  (forall event, exists s', _onSseEvent event s = Normal s').
Proof.
  intros [trace Hrun] Hid.
  assert (H : handlerHasFolder s).
  { apply (handlerHasFolder_run _ _ _ Hrun). right. reflexivity. }
  destruct H as [[folder Hf]|Hempty].
  - split; [eauto|]. intros event. unfold _onSseEvent. rewrite Hf.
    destruct (targetsSavedFolder event folder); [|eauto].
    destruct (String.eqb (jenkins_event event) _); [|eauto].
    destruct (job_multibranch_indexing_result event) as [result|]; [|eauto].
    destruct (String.eqb result "SUCCESS"); [eauto|].
    destruct (String.eqb result "FAILURE"); eauto.
  - exfalso. rewrite Hempty in Hid. apply elem_of_empty in Hid. exact Hid.
Qed.

Lemma handler_runs_with_a_saved_folder_witness :
  reachable stateArmed /\ (7%Z ∈ sseHandlers stateArmed) /\
  savedOrgFolder stateArmed = Some acmeFolder /\
  exists s', _onSseEvent acmeSuccess stateArmed = Normal s'.
Proof.
  assert (Hr : reachable stateArmed) by (exists traceToArmed; vm_compute; reflexivity).
  assert (Hin : 7%Z ∈ sseHandlers stateArmed).
  { change (sseHandlers stateArmed) with ({[7%Z]} ∪ ∅ : gset Z). apply elem_of_added. }
  destruct (handler_runs_with_a_saved_folder stateArmed 7 Hr Hin) as [_ Hev].
  split; [exact Hr|]. split; [exact Hin|]. split; [reflexivity|]. apply Hev.
Defined.

(** ** Tearing down *)

(** X15: [destroy] releases the listeners but cancels no call: in a
    reachable state, after [destroy] no handle is held and the handles held
    before are neither registered nor pending; the calls in flight are
    still in flight, and when a save among them succeeds after [destroy], the
    handler is registered and the timeout started all the same. *)
Theorem destroy_does_not_cancel_the_save
    (s : State) (folder : OrgFolder) (subscribeId timeoutId : Z) :
  subscribeId <> 0%Z -> timeoutId <> 0%Z ->
  existsb isSave (inFlight s) = true ->
  (reachable s ->
   _sseSubscribeId (destroy s) = None /\ _sseTimeoutId (destroy s) = None /\
   (forall id, _sseSubscribeId s = Some id -> id ∉ sseHandlers (destroy s)) /\
   (forall id, _sseTimeoutId s = Some id -> id ∉ timers (destroy s))) /\
  inFlight (destroy s) = inFlight s /\
  exists s',
    exec (SaveSettles (Fulfilled folder) subscribeId timeoutId) (destroy s) = Some s' /\
    status s' = Some STEP_COMPLETE_SUCCESS /\
    savedOrgFolder s' = Some folder /\
    _sseSubscribeId s' = Some subscribeId /\ _sseTimeoutId s' = Some timeoutId /\
    subscribeId ∈ sseHandlers s' /\ timeoutId ∈ timers s'.
Proof.
  intros Hi Hj Hsave. split.
  { intros [trace Hrun]. unfold destroy.
    apply _cleanupListeners_releases, sseListenersPaired_handles.
    apply (run_paired _ _ _ Hrun). exact I. }
  destruct (_cleanupListeners_frame s) as (_ & Hin & _).
  split; [exact Hin|]. cbn [exec].
  rewrite (truthyId_true _ Hi), (truthyId_true _ Hj). cbn [andb].
  unfold destroy. rewrite Hin.
  destruct (takePending_existsb _ _ Hsave) as (k & rest & ->).
  eexists. split; [reflexivity|]. simpl. repeat split; apply elem_of_added.
Qed.

Lemma destroy_does_not_cancel_the_save_witness :
  reachable stateArmedSaving /\
  _sseSubscribeId stateArmedSaving = Some 7%Z /\
  _sseTimeoutId stateArmedSaving = Some 9%Z /\
  _sseSubscribeId (destroy stateArmedSaving) = None /\
  _sseTimeoutId (destroy stateArmedSaving) = None /\
  (7%Z ∉ sseHandlers (destroy stateArmedSaving)) /\
  (9%Z ∉ timers (destroy stateArmedSaving)) /\
  exists s',
    exec (SaveSettles (Fulfilled acmeFolder) 11 13) (destroy stateArmedSaving) = Some s' /\
    _sseSubscribeId s' = Some 11%Z /\ _sseTimeoutId s' = Some 13%Z.
Proof.
  assert (Hr : reachable stateArmedSaving)
    by (exists (traceToArmed ++ [SaveSingleRepo]); vm_compute; reflexivity).
  assert (Hs : _sseSubscribeId stateArmedSaving = Some 7%Z) by (vm_compute; reflexivity).
  assert (Ht : _sseTimeoutId stateArmedSaving = Some 9%Z) by (vm_compute; reflexivity).
  destruct (destroy_does_not_cancel_the_save stateArmedSaving acmeFolder 11 13)
    as (Hrel & _ & s' & He & _ & _ & Hs' & Ht' & _);
    [discriminate | discriminate | vm_compute; reflexivity |].
  destruct (Hrel Hr) as (Hn1 & Hn2 & Hh & Hp).
  split; [exact Hr|]. split; [exact Hs|]. split; [exact Ht|].
  split; [exact Hn1|]. split; [exact Hn2|].
  split; [exact (Hh _ Hs)|]. split; [exact (Hp _ Ht)|].
  exists s'. repeat split; assumption.
Defined.

(** X16: a second save success while armed overwrites the handles of the
    first.  When the timeout of the first then fires, the status becomes
    the timeout error and the second pair is released, but the handler of
    the first stays registered with no timeout left: a terminal event that
    arrives later still sets the status. *)
Theorem second_save_success_leaks_the_first_handler
    (s : State) (folder1 folder2 : OrgFolder) (id1 timeout1 id2 timeout2 : Z)
    (event : SseEvent) :
  disarmed s ->
  id1 <> 0%Z -> timeout1 <> 0%Z -> id2 <> 0%Z -> timeout2 <> 0%Z ->
  id1 <> id2 -> timeout1 <> timeout2 ->
  terminalEvent folder2 event = true ->
  let twice :=
    _saveOrgFolderSuccess folder2 id2 timeout2
      (_saveOrgFolderSuccess folder1 id1 timeout1 s) in
  exists s' s'',
    exec (TimeoutFires timeout1) twice = Some s' /\
    status s' = Some STEP_COMPLETE_EVENT_TIMEOUT /\
    _sseSubscribeId s' = None /\ _sseTimeoutId s' = None /\
    sseHandlers s' = {[id1]} /\ timers s' = ∅ /\
    exec (SseEventArrives event) s' = Some s'' /\
    status s'' = Some (terminalStatus event) /\
    sseHandlers s'' = {[id1]}.
Proof.
  intros (_ & _ & Hh & Ht) Hi1 Hj1 Hi2 Hj2 Hi Hj Hterm twice.
  assert (Hin : timeout1 ∈ timers twice).
  { simpl. apply elem_of_union_r, elem_of_added. }
  cbn [exec]. destruct (decide (timeout1 ∈ timers twice)) as [_|Hn]; [|contradiction].
  unfold _onSseTimeout.
  rewrite (_cleanupListeners_held _ id2 timeout2) by first [reflexivity | assumption].
  assert (Hh' : sseHandlers twice ∖ {[id2]} = {[id1]}).
  { simpl. rewrite Hh. apply set_eq. intros x.
    rewrite elem_of_difference, !elem_of_union, !elem_of_singleton, elem_of_empty.
    split; [tauto|]. intros ->. split; [tauto | congruence]. }
  assert (Ht' : timers twice ∖ {[timeout1]} ∖ {[timeout2]} = ∅).
  { simpl. rewrite Ht. apply set_eq. intros x.
    rewrite !elem_of_difference, !elem_of_union, !elem_of_singleton, elem_of_empty.
    tauto. }
  eexists. eexists. split; [reflexivity|].
  split; [reflexivity|]. split; [reflexivity|]. split; [reflexivity|].
  split; [exact Hh'|]. split; [exact Ht'|].
  cbn [exec]. rewrite (sseDispatch_single_handler event id1) by exact Hh'.
  rewrite (_onSseEvent_terminal event folder2) by first [reflexivity | exact Hterm].
  cbn [state_of]. rewrite _cleanupListeners_none by reflexivity.
  split; [reflexivity|]. split; [reflexivity | exact Hh'].
Qed.

Lemma second_save_success_leaks_the_first_handler_witness :
  disarmed stateSaving /\
  exists s' s'',
    exec (TimeoutFires 9)
         (_saveOrgFolderSuccess acmeFolder 11 13
            (_saveOrgFolderSuccess acmeFolder 7 9 stateSaving)) = Some s' /\
    status s' = Some STEP_COMPLETE_EVENT_TIMEOUT /\
    sseHandlers s' = {[7%Z]} /\
    exec (SseEventArrives acmeSuccess) s' = Some s'' /\
    status s'' = Some STEP_COMPLETE_SUCCESS.
Proof.
  assert (Hd : disarmed stateSaving) by (repeat split; reflexivity).
  split; [exact Hd|].
  destruct (second_save_success_leaks_the_first_handler stateSaving acmeFolder acmeFolder
              7 9 11 13 acmeSuccess Hd)
    as (s' & s'' & He & Hst & _ & _ & Hh & _ & He' & Hst' & _);
    try discriminate; [reflexivity|].
  exists s', s''. repeat split; assumption.
Defined.
